(** * Rename symbol: the controller and the editor action

    A shallow embedding of [RenameController] and [RenameAction]
    (src/vs/workbench/parts/emmet/node/actions/toggleComment.ts, second
    document of the file, lines 25-240).

    The controller is a chain of WinJS promises over services owned by the
    host editor.  The embedding keeps that shape: synchronous code is a
    state transformer over a [World], a promise is the deferred state
    transformer that runs from the moment it is awaited until it settles,
    and [then_] has the two-handler semantics of [TPromise.then].  What the
    collaborators answer (the input field, the rename resolver, the
    transaction's [finish]) is supplied by a [Host]. *)

From Stdlib Require Import ZArith String List Bool Arith Lia.
Import ListNotations.

Set Implicit Arguments.

(* ================================================================== *)
(** * Values                                                           *)
(* ================================================================== *)

(** A JavaScript value as far as a rejection handler of this file can
    tell values apart: [typeof err === 'string'], an [Error] instance,
    or anything else. *)
Inductive JsValue : Type :=
| JsString (s : string)
| JsError (name message : string)
| JsObject (tag : nat).

(** [typeof err === 'string'] *)
Definition typeofString (v : JsValue) : bool :=
  match v with
  | JsString _ => true
  | _ => false
  end.

(** How a promise settles. *)
Inductive Settled (A : Type) : Type :=
| Fulfilled (value : A)
| RejectedWith (err : JsValue).

Arguments Fulfilled {A} value.
Arguments RejectedWith {A} err.

(** [vs/base/common/severity] *)
Inductive Severity : Type := Ignore | Info | Warning | Error.

Record Position : Type := mkPosition {
  lineNumber : Z;
  column : Z
}.

(** [IRange]; the editor's [Selection] is a range too (what it adds, the
    direction of the selection, is never read by the controller). *)
Record IRange : Type := mkRange {
  startLineNumber : Z;
  startColumn : Z;
  endLineNumber : Z;
  endColumn : Z
}.

Definition Selection : Type := IRange.

(** Modelled from the spec: the range class behind [selection.isEmpty()]
    and [selection.getStartPosition()] is not among the sources; a
    selection is empty when its two ends coincide, and its start position
    is its start line and start column. *)
Definition isEmpty (r : IRange) : bool :=
  ((startLineNumber r =? endLineNumber r) && (startColumn r =? endColumn r))%Z.

Definition getStartPosition (r : IRange) : Position :=
  mkPosition (startLineNumber r) (startColumn r).

(** The answer of [getWordAtPosition]: [word], [startColumn], [endColumn]. *)
Module Word.
Record t : Type := mk {
  word : string;
  startColumn : Z;
  endColumn : Z
}.
(** [word.word.length] *)
Definition length (w : t) : Z := Z.of_nat (String.length (word w)).
End Word.

(** A document edit is opaque payload for the controller. *)
Inductive DocumentEdit : Type :=
| ResourceEdit (id : nat).

(** What the resolver answers: the controller reads [rejectReason] and
    [edits] of it. *)
Record IRenameResult : Type := mkRenameResult {
  rejectReason : option string;
  edits : list DocumentEdit
}.

(** The document model, as far as the controller and the action use it. *)
Record ITextModel : Type := mkModel {
  getWordAtPosition : Position -> option Word.t;
  hasEditableRange : bool
}.

(** An answer of a collaborator that arrives later: after [settlesAfter]
    milliseconds the promise settles with [outcome]. *)
Record External (A : Type) : Type := mkExternal {
  settlesAfter : nat;
  outcome : Settled A
}.

(** The collaborators of one controller.  [isPromiseCanceledError]
    ([vs/base/common/errors]) and [localize] ([vs/nls]) are imported by
    the file and not defined in it: they are taken as they come. *)
Record Host : Type := mkHost {
  model : ITextModel;
  inputField : IRange -> string -> Z -> Z -> External string;
  rename : ITextModel -> Position -> string -> External IRenameResult;
  finishBulkEdit : list DocumentEdit -> External (option Selection);
  isPromiseCanceledError : JsValue -> bool;
  localize : string -> string -> string
}.

(* ================================================================== *)
(** * The world the controller acts on                                 *)
(* ================================================================== *)

(** The calls the controller makes on its collaborators. *)
Inductive Event : Type :=
| EvContextSet (value : bool)
| EvContextReset
| EvGetInput (wordRange : IRange) (text : string) (selectionStart selectionEnd : Z)
| EvFocus
| EvCreateBulkEdit (handle : nat)
| EvRename (position : Position) (newName : string)
| EvShowWhile (delay : nat)
| EvProgressSettled
| EvAdd (handle : nat) (es : list DocumentEdit)
| EvFinish (handle : nat)
| EvSetSelection (s : Selection)
| EvShowMessage (severity : Severity) (text : string).

(** [renameInputVisible] is the value of the context key
    [CONTEXT_RENAME_INPUT_VISIBLE]; [bulkEdits] holds the staged edits of
    every transaction created so far, a [BulkEdit] object being its index;
    [documents] lists the edits committed to documents; [log] is every
    call made so far, oldest first, stamped with the time of the call. *)
Record World : Type := mkWorld {
  renameInputVisible : bool;
  selection : Selection;
  position : Position;
  bulkEdits : list (list DocumentEdit);
  documents : list DocumentEdit;
  clock : nat;
  log : list (nat * Event)
}.

(** [new KbCtxKey<boolean>('renameInputVisible', false)]: the default. *)
Definition CONTEXT_RENAME_INPUT_VISIBLE : bool := false.

(* ------------------------------------------------------------------ *)
(** ** Synchronous code and promises                                   *)
(* ------------------------------------------------------------------ *)

Definition Sync (A : Type) : Type := World -> A * World.

Definition ret {A : Type} (a : A) : Sync A := fun w => (a, w).

Definition bind {A B : Type} (m : Sync A) (k : A -> Sync B) : Sync B :=
  fun w => let (a, w1) := m w in k a w1.

Declare Scope sync_scope.
Delimit Scope sync_scope with sync.
Notation "x <- m ;; k" := (bind m (fun x => k))
  (at level 61, m at next level, right associativity) : sync_scope.
Notation "m ;; k" := (bind m (fun _ => k))
  (at level 61, right associativity) : sync_scope.
Local Open Scope sync_scope.

(** A promise: what happens between now and the moment it settles. *)
Definition Promise (A : Type) : Type := World -> Settled A * World.

(** [TPromise.as(v)], also a handler that returns the plain value [v]. *)
Definition resolved {A : Type} (a : A) : Promise A :=
  fun w => (Fulfilled a, w).

(** [TPromise.wrapError(err)] *)
Definition wrapError {A : Type} (err : JsValue) : Promise A :=
  fun w => (RejectedWith err, w).

(** [p.then(onFulfilled, onRejected)]: exactly one handler runs, chosen
    by how [p] settles; the promise a handler returns is then awaited.  A
    rejection of that returned promise is NOT passed to [onRejected]. *)
Definition then_ {A B : Type} (p : Promise A)
    (onFulfilled : A -> Sync (Promise B))
    (onRejected : JsValue -> Sync (Promise B)) : Promise B :=
  fun w =>
    match p w with
    | (Fulfilled a, w1) => let (q, w2) := onFulfilled a w1 in q w2
    | (RejectedWith err, w1) => let (q, w2) := onRejected err w1 in q w2
    end.

(** [p.then(onFulfilled)]: a rejection of [p] passes through. *)
Definition then1 {A B : Type} (p : Promise A)
    (onFulfilled : A -> Sync (Promise B)) : Promise B :=
  then_ p onFulfilled (fun err => ret (wrapError err)).

(** A further subscriber to a promise: the promise is one object, and
    whoever holds it may put a listener on it.  The listener is told how
    the promise settled, after the promise's own handlers have run; what
    the promise settles with is not the listener's to change. *)
Definition subscribe {A : Type} (p : Promise A)
    (listener : Settled A -> Sync unit) : Promise A :=
  fun w =>
    let (settled, w1) := p w in
    let (_, w2) := listener settled w1 in
    (settled, w2).

(** Waiting for a collaborator: time passes, then its outcome is there. *)
Definition tick (ms : nat) (w : World) : World :=
  mkWorld (renameInputVisible w) (selection w) (position w) (bulkEdits w)
          (documents w) (clock w + ms) (log w).

Definition await {A : Type} (x : External A) : Promise A :=
  fun w => (outcome x, tick (settlesAfter x) w).

(* ------------------------------------------------------------------ *)
(** ** The services                                                    *)
(* ------------------------------------------------------------------ *)

Definition emit (ev : Event) : Sync unit :=
  fun w => (tt, mkWorld (renameInputVisible w) (selection w) (position w)
                        (bulkEdits w) (documents w) (clock w)
                        (log w ++ [(clock w, ev)])).

Definition writeContext (b : bool) : Sync unit :=
  fun w => (tt, mkWorld b (selection w) (position w) (bulkEdits w)
                        (documents w) (clock w) (log w)).

(** [this._renameInputVisible.set(value)] *)
Definition contextSet (value : bool) : Sync unit :=
  emit (EvContextSet value) ;; writeContext value.

(** [this._renameInputVisible.reset()]: back to the key's default. *)
Definition contextReset : Sync unit :=
  emit EvContextReset ;; writeContext CONTEXT_RENAME_INPUT_VISIBLE.

(** [this.editor.getSelection()], [this.editor.getPosition()] *)
Definition getSelection : Sync Selection := fun w => (selection w, w).
Definition getPosition : Sync Position := fun w => (position w, w).

(** [this.editor.focus()] *)
Definition focus : Sync unit := emit EvFocus.

(** [this.editor.setSelection(s)]; the controller does not read the
    cursor position again after it. *)
Definition setSelection (s : Selection) : Sync unit :=
  emit (EvSetSelection s) ;;
  fun w => (tt, mkWorld (renameInputVisible w) s (position w) (bulkEdits w)
                        (documents w) (clock w) (log w)).

(** [this._messageService.show(severity, text)] *)
Definition showMessage (severity : Severity) (text : string) : Sync unit :=
  emit (EvShowMessage severity text).

(** [this._renameInputField.getInput(range, text, start, end)]: the field
    is shown now; the promise settles when the user is done. *)
Definition getInput (h : Host) (wordRange : IRange) (text : string)
    (selectionStart selectionEnd : Z) : Sync (Promise string) :=
  emit (EvGetInput wordRange text selectionStart selectionEnd) ;;
  ret (await (inputField h wordRange text selectionStart selectionEnd)).

(** [rename(model, position, newName)] of [../common/rename]: the
    resolver is invoked now and answers later. *)
Definition callRename (h : Host) (m : ITextModel) (pos : Position)
    (newName : string) : Sync (Promise IRenameResult) :=
  emit (EvRename pos newName) ;;
  ret (await (rename h m pos newName)).

(** Modelled from the spec: the progress service is not among the
    sources.  It is "given a pending operation and a delay threshold": it
    watches the operation it is given, and this is what it does when that
    operation settles. *)
Definition progressSettled {A : Type} (settled : Settled A) : Sync unit :=
  emit EvProgressSettled.

(** [this._progressService.showWhile(operation, delay)], line 134.  The
    promise handed over is an object shared with the caller: the service
    puts its listener on that very object.  What the call leaves behind
    is the promise with the service's listener on it; the value the call
    itself returns is dropped by the caller. *)
Definition showWhile {A : Type} (operation : Promise A) (delay : nat)
    : Sync (Promise A) :=
  emit (EvShowWhile delay) ;;
  ret (subscribe operation progressSettled).

(** Modelled from the spec: [vs/editor/common/services/bulkEdit] is not
    among the sources.  A transaction "accumulates zero or more
    DocumentEdits and exposes a single finish() operation that commits
    them and returns an optional resulting selection", it is "created
    fresh per run() invocation", and finish() "must guarantee
    all-or-nothing application". *)
Definition BulkEdit : Type := nat.

(** Modelled from the spec: [createBulkEdit(...)] opens a transaction
    "created fresh per run() invocation", with nothing staged. *)
Definition createBulkEdit : Sync BulkEdit :=
  fun w =>
    let handle := List.length (bulkEdits w) in
    (handle, mkWorld (renameInputVisible w) (selection w) (position w)
                     (bulkEdits w ++ [[]]) (documents w) (clock w)
                     (log w ++ [(clock w, EvCreateBulkEdit handle)])).

(** Modelled from the spec: a transaction "accumulates" what is added,
    after what it already holds. *)
Fixpoint stage (handle : nat) (es : list DocumentEdit)
    (store : list (list DocumentEdit)) : list (list DocumentEdit) :=
  match store, handle with
  | [], _ => []
  | staged :: rest, O => (staged ++ es) :: rest
  | staged :: rest, S n => staged :: stage n es rest
  end.

(** The edits staged in a transaction so far. *)
Definition staged (handle : nat) (w : World) : list DocumentEdit :=
  nth handle (bulkEdits w) [].

(** Modelled from the spec: [edit.add(edits)] stages the edits. *)
Definition add (edit : BulkEdit) (es : list DocumentEdit) : Sync unit :=
  emit (EvAdd edit es) ;;
  fun w => (tt, mkWorld (renameInputVisible w) (selection w) (position w)
                        (stage edit es (bulkEdits w)) (documents w)
                        (clock w) (log w)).

(** Modelled from the spec: committed edits reach the documents "as one
    unit". *)
Definition commit (es : list DocumentEdit) (w : World) : World :=
  mkWorld (renameInputVisible w) (selection w) (position w) (bulkEdits w)
          (documents w ++ es) (clock w) (log w).

(** Modelled from the spec: [edit.finish()] "commits all staged edits as
    one unit and optionally returns a selection to restore"; all staged
    edits reach the documents when it fulfils, none when it rejects. *)
Definition finish (h : Host) (edit : BulkEdit) : Sync (Promise (option Selection)) :=
  emit (EvFinish edit) ;;
  ret (fun w =>
         let es := staged edit w in
         let x := finishBulkEdit h es in
         match outcome x with
         | Fulfilled s => (Fulfilled s, commit es (tick (settlesAfter x) w))
         | RejectedWith err => (RejectedWith err, tick (settlesAfter x) w)
         end).

(** Modelled from the spec: the progress service is not among the
    sources.  "Given a pending operation and a delay threshold, shows a
    busy indicator only if the operation outlives the threshold": called
    at [calledAt] with [delay], the indicator comes up when the watched
    operation is still pending [delay] milliseconds later. *)
Definition indicatorShown (calledAt delay settledAt : nat) : bool :=
  calledAt + delay <? settledAt.

(* ================================================================== *)
(** * RenameController                                                 *)
(* ================================================================== *)

(** [if (result.rejectReason)]: JavaScript truthiness.  [undefined] and
    the empty string are falsy, every other string is truthy; the answer
    is the reason when the test passes. *)
Definition truthy (reason : option string) : option string :=
  match reason with
  | Some (String c rest) => Some (String c rest)
  | Some EmptyString => None
  | None => None
  end.

(** Lines 95-110 of [run]: the sub-range of the word that the input field
    highlights. *)
Definition highlightedRange (word : Word.t) (sel : Selection) : Z * Z :=
  let selectionStart := 0%Z in
  let selectionEnd := Word.length word in
  if negb (isEmpty sel) && (startLineNumber sel =? endLineNumber sel)%Z
  then (Z.max 0 (startColumn sel - Word.startColumn word),
        (Z.min (Word.endColumn word) (endColumn sel) - Word.startColumn word)%Z)
  else (selectionStart, selectionEnd).

(** What the caller of [run()] ends up with: [undefined] (the bare
    [return;] of line 92), a promise that fulfils, or one that rejects. *)
Inductive Outcome : Type :=
| ReturnedUndefined
| Completed
| Failed (err : JsValue).

Section Controller.

Variable h : Host.

(** [_prepareRename(newName)], lines 155-168 *)
Definition _prepareRename (newName : string) : Sync (Promise BulkEdit) :=
  edit <- createBulkEdit ;;
  pos <- getPosition ;;
  answer <- callRename h (model h) pos newName ;;
  ret (then1 answer (fun result =>
         match truthy (rejectReason result) with
         | Some reason => ret (wrapError (JsString reason))
         | None => add edit (edits result) ;; ret (resolved edit)
         end)).

(** The handlers of [renameOperation], lines 117-132 *)
Definition onPrepared (edit : BulkEdit) : Sync (Promise unit) :=
  finished <- finish h edit ;;
  ret (then1 finished (fun sel =>
         match sel with
         | Some s => setSelection s ;; ret (resolved tt)
         | None => ret (resolved tt)
         end)).

Definition onPrepareFailed (err : JsValue) : Sync (Promise unit) :=
  match err with
  | JsString reason => showMessage Info reason ;; ret (resolved tt)
  | _ =>
      showMessage Error
        (localize h "rename.failed" "Sorry, rename failed to execute.") ;;
      ret (wrapError err)
  end.

(** The handlers of the input promise, lines 113-144.  After line 134
    [renameOperation] is still the one promise object, which now carries
    the listener of the progress service; line 135 returns it. *)
Definition onInput (newName : string) : Sync (Promise unit) :=
  contextReset ;;
  focus ;;
  prepared <- _prepareRename newName ;;
  let renameOperation := then_ prepared onPrepared onPrepareFailed in
  renameOperation <- showWhile renameOperation 250 ;;
  ret renameOperation.

Definition onInputRejected (err : JsValue) : Sync (Promise unit) :=
  contextReset ;;
  focus ;;
  if negb (isPromiseCanceledError h err)
  then ret (wrapError err)
  else ret (resolved tt).

(** [run()], lines 86-145.  [None] is the bare [return;] of line 92:
    the caller gets [undefined], not a promise. *)
Definition run : Sync (option (Promise unit)) :=
  sel <- getSelection ;;
  match getWordAtPosition (model h) (getStartPosition sel) with
  | None => ret None
  | Some word =>
      let lineNumber := startLineNumber sel in
      let '(selectionStart, selectionEnd) := highlightedRange word sel in
      let wordRange :=
        mkRange lineNumber (Word.startColumn word)
                lineNumber (Word.endColumn word) in
      contextSet true ;;
      input <- getInput h wordRange (Word.word word) selectionStart selectionEnd ;;
      ret (Some (then_ input onInput onInputRejected))
  end.

(** One whole interaction: [run()] and, when it returned a promise, all
    that happens until that promise settles. *)
Definition interaction (w : World) : Outcome * World :=
  match run w with
  | (None, w1) => (ReturnedUndefined, w1)
  | (Some p, w1) =>
      match p w1 with
      | (Fulfilled _, w2) => (Completed, w2)
      | (RejectedWith err, w2) => (Failed err, w2)
      end
  end.

End Controller.

(* ================================================================== *)
(** * RenameAction                                                     *)
(* ================================================================== *)

(** The editor as the action sees it: [getModel()] and
    [getConfiguration().readOnly]. *)
Record ICommonCodeEditor : Type := mkEditor {
  getModel : ITextModel;
  readOnly : bool
}.

(** Modelled from the spec: [RenameProviderRegistry]
    ([vs/editor/common/modes]) is not among the sources.  The resolver is
    "pluggable, may have zero or many registered providers"; the registry
    gives the providers registered for a document, and [has] is the
    "registration-existence check": at least one of them. *)
Definition RenameProviderRegistry : Type := ITextModel -> list nat.

Definition has (registry : RenameProviderRegistry) (m : ITextModel) : bool :=
  match registry m with
  | [] => false
  | _ :: _ => true
  end.

(** The methods of the base class that [RenameAction] calls through
    [super]. *)
Record EditorActionBase : Type := mkBase {
  superSupported : ICommonCodeEditor -> bool;
  superEnabled : ICommonCodeEditor -> bool
}.

(** Modelled from the spec: the base class [EditorAction]
    ([vs/editor/common/editorCommonExtensions]) is not among the sources.
    [RenameAction] passes [true] as the last constructor argument, and the
    spec has the action "enabled/visible only when at least one resolver
    is registered for the document and the document is writable": an
    action built with [needsWritableEditor] is neither supported nor
    enabled in a read-only editor. *)
Definition EditorAction (needsWritableEditor : bool) : EditorActionBase :=
  mkBase (fun editor => if needsWritableEditor then negb (readOnly editor) else true)
         (fun editor => if needsWritableEditor then negb (readOnly editor) else true).

(** The context keys named in this file and the expressions over them. *)
Inductive ContextKey : Type :=
| TextFocus
| Focus
| Writable
| hasRenameProvider
| renameInputVisibleKey.

Inductive KbExpr : Type :=
| KbKey (key : ContextKey)
| KbAnd (left right : KbExpr).

Fixpoint evaluate (context : ContextKey -> bool) (e : KbExpr) : bool :=
  match e with
  | KbKey key => context key
  | KbAnd l r => evaluate context l && evaluate context r
  end.

(** Modelled from the spec: the editor keeps the context keys, not this
    file.  [hasRenameProvider] holds when a resolver is registered for
    the editor's document, [Writable] when the document is writable. *)
Definition editorContext (registry : RenameProviderRegistry)
    (editor : ICommonCodeEditor) (focused textFocused inputVisible : bool)
    (key : ContextKey) : bool :=
  match key with
  | TextFocus => textFocused
  | Focus => focused
  | Writable => negb (readOnly editor)
  | hasRenameProvider => has registry (getModel editor)
  | renameInputVisibleKey => inputVisible
  end.

Module RenameAction.

(** The last argument of [super(...)], line 180 *)
Definition needsWritableEditor : bool := true.

(** [this.kbOpts.kbExpr], line 184 *)
Definition kbOpts : KbExpr := KbKey TextFocus.

(** [this.menuOpts.kbExpr], line 191 *)
Definition menuOpts : KbExpr := KbAnd (KbKey hasRenameProvider) (KbKey Writable).

(** [supported(accessor, editor)], lines 195-200 *)
Definition supported (base : EditorActionBase) (registry : RenameProviderRegistry)
    (editor : ICommonCodeEditor) : bool :=
  if negb (superSupported base editor) then false
  else has registry (getModel editor)
       && negb (hasEditableRange (getModel editor)).

(** [enabled(accessor, editor)], lines 202-207 *)
Definition enabled (base : EditorActionBase) (registry : RenameProviderRegistry)
    (editor : ICommonCodeEditor) : bool :=
  if negb (superEnabled base editor) then false
  else has registry (getModel editor).

(** Whether the menu shows the action for an editor. *)
Definition menuVisible (registry : RenameProviderRegistry)
    (editor : ICommonCodeEditor) (focused textFocused inputVisible : bool) : bool :=
  evaluate (editorContext registry editor focused textFocused inputVisible) menuOpts.

End RenameAction.

(** [RenameCommand]'s [kbExpr], line 219: accept and cancel are routed to
    the controller only while the input is visible. *)
Definition RenameCommand_kbExpr : KbExpr :=
  KbAnd (KbKey Focus) (KbKey renameInputVisibleKey).

(* ================================================================== *)
(** * Reading a run                                                    *)
(* ================================================================== *)

(** The word under the start of the selection, and the arguments and
    answers of the calls [run()] makes from a world [w]. *)
Definition wordAtCursor (h : Host) (w : World) : option Word.t :=
  getWordAtPosition (model h) (getStartPosition (selection w)).

Definition wordRangeOf (word : Word.t) (w : World) : IRange :=
  mkRange (startLineNumber (selection w)) (Word.startColumn word)
          (startLineNumber (selection w)) (Word.endColumn word).

Definition inputAnswer (h : Host) (w : World) (word : Word.t) : External string :=
  inputField h (wordRangeOf word w) (Word.word word)
             (fst (highlightedRange word (selection w)))
             (snd (highlightedRange word (selection w))).

Definition resolverAnswer (h : Host) (w : World) (newName : string)
    : External IRenameResult :=
  rename h (model h) (position w) newName.

(** The two calls that open every interaction with a word, and the two
    that follow as soon as the input field settles. *)
Definition opening (w : World) (word : Word.t) : list (nat * Event) :=
  [ (clock w, EvContextSet true);
    (clock w, EvGetInput (wordRangeOf word w) (Word.word word)
                         (fst (highlightedRange word (selection w)))
                         (snd (highlightedRange word (selection w)))) ].

Definition restoring (at_ : nat) : list (nat * Event) :=
  [ (at_, EvContextReset); (at_, EvFocus) ].

(** The synchronous part of the accepted path: a fresh transaction, the
    resolver invoked, the progress service told to watch. *)
Definition starting (at_ : nat) (w : World) (newName : string) : list (nat * Event) :=
  [ (at_, EvCreateBulkEdit (List.length (bulkEdits w)));
    (at_, EvRename (position w) newName);
    (at_, EvShowWhile 250) ].

(** Projections of a log. *)
Fixpoint messagesShown (l : list (nat * Event)) : list (Severity * string) :=
  match l with
  | [] => []
  | (_, EvShowMessage severity text) :: rest => (severity, text) :: messagesShown rest
  | _ :: rest => messagesShown rest
  end.

Fixpoint contextWrites (l : list (nat * Event)) : list bool :=
  match l with
  | [] => []
  | (_, EvContextSet value) :: rest => value :: contextWrites rest
  | (_, EvContextReset) :: rest => CONTEXT_RENAME_INPUT_VISIBLE :: contextWrites rest
  | _ :: rest => contextWrites rest
  end.

Fixpoint progressCalls (l : list (nat * Event)) : list (nat * nat) :=
  match l with
  | [] => []
  | (calledAt, EvShowWhile delay) :: rest => (calledAt, delay) :: progressCalls rest
  | _ :: rest => progressCalls rest
  end.

Fixpoint finishCalls (l : list (nat * Event)) : list nat :=
  match l with
  | [] => []
  | (_, EvFinish handle) :: rest => handle :: finishCalls rest
  | _ :: rest => finishCalls rest
  end.

Fixpoint stagings (l : list (nat * Event)) : list (nat * list DocumentEdit) :=
  match l with
  | [] => []
  | (_, EvAdd handle es) :: rest => (handle, es) :: stagings rest
  | _ :: rest => stagings rest
  end.

(* ================================================================== *)
(** * A concrete editor                                                *)
(* ================================================================== *)

(** The word "foo" at columns 5 to 8 of line 1; nothing elsewhere. *)
Definition fooModel : ITextModel :=
  mkModel (fun pos =>
             if ((lineNumber pos =? 1) && (5 <=? column pos) && (column pos <=? 8))%Z
             then Some (Word.mk "foo" 5 8)
             else None)
          false.

(** A cancellation the way [isCanceled] below recognises it. *)
Definition canceled : JsValue := JsError "Canceled" "Canceled".

Definition isCanceled (v : JsValue) : bool :=
  match v with
  | JsError name message => String.eqb name "Canceled" && String.eqb message "Canceled"
  | _ => false
  end.

Definition fooHost (input : External string) (answer : External IRenameResult)
    (finished : External (option Selection)) : Host :=
  mkHost fooModel
         (fun _ _ _ _ => input)
         (fun _ _ _ => answer)
         (fun _ => finished)
         isCanceled
         (fun _ defaultText => defaultText).

(** Answers used in the examples: the user types "bar" after a second,
    the resolver takes 40 milliseconds, the commit 300. *)
Definition typedBar : External string := mkExternal 1000 (Fulfilled "bar"%string).

Definition boom : JsValue := JsError "Error" "boom".

Definition twoEdits : list DocumentEdit := [ResourceEdit 1; ResourceEdit 2].

Definition committingHost (restored : option Selection) : Host :=
  fooHost typedBar
          (mkExternal 40 (Fulfilled (mkRenameResult None twoEdits)))
          (mkExternal 300 (Fulfilled restored)).

Definition decliningHost (reason : string) : Host :=
  fooHost typedBar
          (mkExternal 40 (Fulfilled (mkRenameResult (Some reason) twoEdits)))
          (mkExternal 300 (Fulfilled None)).

Definition resolverFailingHost : Host :=
  fooHost typedBar
          (mkExternal 40 (RejectedWith boom))
          (mkExternal 300 (Fulfilled None)).

Definition commitFailingHost : Host :=
  fooHost typedBar
          (mkExternal 40 (Fulfilled (mkRenameResult None twoEdits)))
          (mkExternal 300 (RejectedWith boom)).

Definition dismissingHost (err : JsValue) : Host :=
  fooHost (mkExternal 1000 (RejectedWith err))
          (mkExternal 40 (Fulfilled (mkRenameResult None twoEdits)))
          (mkExternal 300 (Fulfilled None)).

(** The cursor at a line and column, nothing selected, nothing done yet;
    and a one-line selection. *)
Definition cursorAt (line col : Z) : World :=
  mkWorld false (mkRange line col line col) (mkPosition line col) [] [] 0 [].

Definition selecting (line col endCol : Z) : World :=
  mkWorld false (mkRange line col line endCol) (mkPosition line endCol) [] [] 0 [].

(* ================================================================== *)
(** * The vocabulary of the properties                                 *)
(* ================================================================== *)

(** When the input field, the resolver and the commit settle. *)
Definition inputSettledAt (h : Host) (w : World) (word : Word.t) : nat :=
  clock w + settlesAfter (inputAnswer h w word).

Definition resolverSettledAt (h : Host) (w : World) (word : Word.t)
    (newName : string) : nat :=
  inputSettledAt h w word + settlesAfter (resolverAnswer h w newName).

Definition finishSettledAt (h : Host) (w : World) (word : Word.t)
    (newName : string) (es : list DocumentEdit) : nat :=
  resolverSettledAt h w word newName + settlesAfter (finishBulkEdit h es).

(** The text of the generic failure message, line 129. *)
Definition renameFailed (h : Host) : string :=
  localize h "rename.failed" "Sorry, rename failed to execute.".

(** What the rejection handler of [renameOperation] shows for [err], and
    how [renameOperation] settles after it. *)
Definition reported (h : Host) (err : JsValue) : Event :=
  match err with
  | JsString reason => EvShowMessage Info reason
  | _ => EvShowMessage Error (renameFailed h)
  end.

Definition settledAfterReport (err : JsValue) : Outcome :=
  match err with
  | JsString _ => Completed
  | _ => Failed err
  end.

(** The sub-range in the words of the specification: the whole word when
    the selection is empty or spans several lines, otherwise the
    selection cut to the word. *)
Definition highlightedRangeSpec (word : Word.t) (sel : Selection) : Z * Z :=
  if isEmpty sel || negb (startLineNumber sel =? endLineNumber sel)%Z
  then (0%Z, Word.length word)
  else (Z.max 0 (startColumn sel - Word.startColumn word),
        (Z.min (Word.endColumn word) (endColumn sel) - Word.startColumn word)%Z).

(** What the document model promises about the word it reports at the
    start of a selection: the word covers that column, its text is as
    long as its column span, and a selection does not end before it
    starts. *)
Definition wordCoversCursor (word : Word.t) (sel : Selection) : Prop :=
  (Word.startColumn word <= startColumn sel <= Word.endColumn word
   /\ Word.endColumn word - Word.startColumn word = Word.length word
   /\ (startLineNumber sel = endLineNumber sel -> startColumn sel <= endColumn sel))%Z.

(** The resolver declined with reason [X]: the interaction completes,
    shows exactly the informational message [X], stages nothing, calls no
    [finish] and changes no document. *)
Definition DeclinedWith (h : Host) (w : World) (X : string) : Prop :=
  fst (interaction h w) = Completed
  /\ documents (snd (interaction h w)) = documents w
  /\ exists new,
       log (snd (interaction h w)) = log w ++ new
       /\ messagesShown new = [(Info, X)]
       /\ stagings new = []
       /\ finishCalls new = [].

(** Where an unexpected error comes from. *)
Inductive Stage : Type := Computing | Committing.

Definition raisedIn (h : Host) (w : World) (newName : string) (err : JsValue)
    (stage : Stage) : Prop :=
  match stage with
  | Computing =>
      outcome (resolverAnswer h w newName) = RejectedWith err
      /\ typeofString err = false
  | Committing =>
      typeofString err = false
      /\ exists result,
           outcome (resolverAnswer h w newName) = Fulfilled result
           /\ truthy (rejectReason result) = None
           /\ outcome (finishBulkEdit h (edits result)) = RejectedWith err
  end.

(** The interaction fails with [err], the visibility flag is down, and
    the messages shown along the way are exactly [shown]. *)
Definition FailedWith (h : Host) (w : World) (err : JsValue)
    (shown : list (Severity * string)) : Prop :=
  fst (interaction h w) = Failed err
  /\ renameInputVisible (snd (interaction h w)) = false
  /\ exists new,
       log (snd (interaction h w)) = log w ++ new
       /\ messagesShown new = shown.

(** How long the step watched by the progress service lasts: the
    resolver, and the commit when the resolver's answer is committed. *)
Definition stepDuration (h : Host) (w : World) (newName : string) : nat :=
  let answer := resolverAnswer h w newName in
  settlesAfter answer
  + match outcome answer with
    | Fulfilled result =>
        match truthy (rejectReason result) with
        | None => settlesAfter (finishBulkEdit h (edits result))
        | Some _ => 0
        end
    | RejectedWith _ => 0
    end.

(** Two hosts that answer alike and differ at most in how long their
    answers take. *)
Definition sameAnswers (h1 h2 : Host) : Prop :=
  (forall pos, getWordAtPosition (model h1) pos = getWordAtPosition (model h2) pos)
  /\ (forall r text s e,
        outcome (inputField h1 r text s e) = outcome (inputField h2 r text s e))
  /\ (forall pos newName,
        outcome (rename h1 (model h1) pos newName)
        = outcome (rename h2 (model h2) pos newName))
  /\ (forall es, outcome (finishBulkEdit h1 es) = outcome (finishBulkEdit h2 es))
  /\ (forall err, isPromiseCanceledError h1 err = isPromiseCanceledError h2 err)
  /\ (forall key text, localize h1 key text = localize h2 key text).

(** A world without its clock and time stamps. *)
Definition untimed (w : World)
    : bool * Selection * Position * list (list DocumentEdit)
      * list DocumentEdit * list Event :=
  (renameInputVisible w, selection w, position w, bulkEdits w, documents w,
   map snd (log w)).

(* ================================================================== *)
(** * The paths of an interaction                                      *)
(* ================================================================== *)

(* ================================================================== *)
(** * More ways to read a run                                          *)
(* ================================================================== *)

(** The calls an interaction adds to the log. *)
Definition newEvents (h : Host) (w : World) : list (nat * Event) :=
  skipn (List.length (log w)) (log (snd (interaction h w))).

Fixpoint focusCalls (l : list (nat * Event)) : nat :=
  match l with
  | [] => 0
  | (_, EvFocus) :: rest => S (focusCalls rest)
  | _ :: rest => focusCalls rest
  end.

Fixpoint inputsShown (l : list (nat * Event)) : nat :=
  match l with
  | [] => 0
  | (_, EvGetInput _ _ _ _) :: rest => S (inputsShown rest)
  | _ :: rest => inputsShown rest
  end.

Fixpoint transactionsCreated (l : list (nat * Event)) : list nat :=
  match l with
  | [] => []
  | (_, EvCreateBulkEdit handle) :: rest => handle :: transactionsCreated rest
  | _ :: rest => transactionsCreated rest
  end.

Fixpoint resolverCalls (l : list (nat * Event)) : list (Position * string) :=
  match l with
  | [] => []
  | (_, EvRename pos newName) :: rest => (pos, newName) :: resolverCalls rest
  | _ :: rest => resolverCalls rest
  end.

Fixpoint selectionsSet (l : list (nat * Event)) : list Selection :=
  match l with
  | [] => []
  | (_, EvSetSelection s) :: rest => s :: selectionsSet rest
  | _ :: rest => selectionsSet rest
  end.

(** The calls made on transactions, in the order they were made. *)
Fixpoint transactionCalls (l : list (nat * Event)) : list Event :=
  match l with
  | [] => []
  | (_, EvCreateBulkEdit handle) :: rest =>
      EvCreateBulkEdit handle :: transactionCalls rest
  | (_, EvAdd handle es) :: rest => EvAdd handle es :: transactionCalls rest
  | (_, EvFinish handle) :: rest => EvFinish handle :: transactionCalls rest
  | _ :: rest => transactionCalls rest
  end.

(** Modelled from the spec: what the progress service has seen.  The
    first time, if any, at which it saw a watched operation settle; and
    for every call of [showWhile] the time of the call, the delay, and the
    time at which the service saw the operation it was given settle. *)
Fixpoint firstSettled (l : list (nat * Event)) : option nat :=
  match l with
  | [] => None
  | (at_, EvProgressSettled) :: _ => Some at_
  | _ :: rest => firstSettled rest
  end.

Fixpoint progressWatches (l : list (nat * Event)) : list (nat * nat * nat) :=
  match l with
  | [] => []
  | (calledAt, EvShowWhile delay) :: rest =>
      match firstSettled rest with
      | Some settledAt => (calledAt, delay, settledAt) :: progressWatches rest
      | None => progressWatches rest
      end
  | _ :: rest => progressWatches rest
  end.

(** Modelled from the spec: the busy indicator came up during the calls
    of a log when some watched operation outlived its delay. *)
Definition indicatorCameUp (l : list (nat * Event)) : bool :=
  existsb (fun watch =>
             match watch with
             | (calledAt, delay, settledAt) =>
                 indicatorShown calledAt delay settledAt
             end)
          (progressWatches l).

(** The same world with another value of the context key. *)
Definition withFlag (value : bool) (w : World) : World :=
  mkWorld value (selection w) (position w) (bulkEdits w) (documents w)
          (clock w) (log w).

(** Whether the keys bound by [RenameCommand] (Enter, Escape, Shift+Escape,
    lines 225-240) are routed to the controller in a world. *)
Definition renameCommandActive (registry : RenameProviderRegistry)
    (editor : ICommonCodeEditor) (focused textFocused : bool) (w : World) : bool :=
  evaluate (editorContext registry editor focused textFocused
                          (renameInputVisible w))
           RenameCommand_kbExpr.

Unset Implicit Arguments.

Lemma stage_fresh (store : list (list DocumentEdit)) (es : list DocumentEdit) :
  stage (List.length store) es (store ++ [[]]) = store ++ [es].
Proof.
  induction store as [| first rest IH]; simpl.
  - reflexivity.
  - now rewrite IH.
Qed.

Lemma nth_fresh (store : list (list DocumentEdit)) (es : list DocumentEdit) :
  nth (List.length store) (store ++ [es]) [] = es.
Proof.
  induction store as [| first rest IH]; simpl; auto.
Qed.

Lemma skipn_length_app {A : Type} (l r : list A) :
  skipn (List.length l) (l ++ r) = r.
Proof.
  induction l as [| x rest IH]; simpl; auto.
Qed.

(** After [unfold newEvents] and [by_paths]: the new events of the path. *)
Ltac read_new_events :=
  cbn [fst snd log renameInputVisible selection position bulkEdits documents];
  repeat rewrite skipn_length_app.

Ltac concrete_events := unfold opening, restoring, starting, reported.

Lemma messagesShown_app (l1 l2 : list (nat * Event)) :
  messagesShown (l1 ++ l2) = messagesShown l1 ++ messagesShown l2.
Proof.
  induction l1 as [| [t ev] rest IH]; simpl; auto.
  destruct ev; simpl; auto. now rewrite IH.
Qed.

Lemma progressCalls_app (l1 l2 : list (nat * Event)) :
  progressCalls (l1 ++ l2) = progressCalls l1 ++ progressCalls l2.
Proof.
  induction l1 as [| [t ev] rest IH]; simpl; auto.
  destruct ev; simpl; auto. now rewrite IH.
Qed.

Ltac open_run :=
  cbv beta iota zeta delta
    [interaction run then_ then1 onInput onInputRejected _prepareRename
     onPrepared onPrepareFailed getInput callRename finish add createBulkEdit
     contextSet contextReset writeContext focus setSelection showMessage
     showWhile subscribe progressSettled emit getSelection getPosition await
     resolved wrapError bind
     ret tick commit staged CONTEXT_RENAME_INPUT_VISIBLE
     renameInputVisible selection position bulkEdits documents clock log]
    in *.

Ltac open_names :=
  unfold finishSettledAt, resolverSettledAt, inputSettledAt, resolverAnswer,
    inputAnswer, wordAtCursor, opening, restoring, starting, wordRangeOf,
    reported, settledAfterReport, renameFailed in *.

Ltac flatten_log := repeat rewrite <- app_assoc; cbn [app].

(** Start of every path with a word: the world is taken apart, the run
    is evaluated as far as the collaborators' answers allow, and the word
    lookup is resolved. *)
Ltac enter_run w Hword :=
  destruct w;
  open_names; open_run; rewrite Hword;
  match goal with
  | |- context [highlightedRange ?word ?sel] =>
      destruct (highlightedRange word sel)
  end;
  cbn [fst snd] in *.

Ltac answer H := rewrite H; cbv beta iota.

Section Paths.

Variable h : Host.

(** No word under the cursor: [run()] returns at line 92. *)
Lemma path_no_word (w : World) :
  wordAtCursor h w = None ->
  interaction h w = (ReturnedUndefined, w).
Proof.
  intros Hnone. destruct w. open_names. open_run. rewrite Hnone. reflexivity.
Qed.

Variable word : Word.t.

(** The input field rejects: the handler of lines 137-144. *)
Lemma path_input_rejected (w : World) (err : JsValue) :
  wordAtCursor h w = Some word ->
  outcome (inputAnswer h w word) = RejectedWith err ->
  interaction h w =
    (if isPromiseCanceledError h err then Completed else Failed err,
     mkWorld false (selection w) (position w) (bulkEdits w) (documents w)
             (inputSettledAt h w word)
             (log w ++ opening w word
                    ++ restoring (inputSettledAt h w word))).
Proof.
  intros Hword Hin. enter_run w Hword. answer Hin.
  destruct (isPromiseCanceledError h err); cbv beta iota;
    flatten_log; reflexivity.
Qed.

Variable newName : string.

(** The resolver rejects: the handler of lines 125-132. *)
Lemma path_resolver_rejected (w : World) (err : JsValue) :
  wordAtCursor h w = Some word ->
  outcome (inputAnswer h w word) = Fulfilled newName ->
  outcome (resolverAnswer h w newName) = RejectedWith err ->
  interaction h w =
    (settledAfterReport err,
     mkWorld false (selection w) (position w) (bulkEdits w ++ [[]])
             (documents w) (resolverSettledAt h w word newName)
             (log w ++ opening w word
                    ++ restoring (inputSettledAt h w word)
                    ++ starting (inputSettledAt h w word) w newName
                    ++ [(resolverSettledAt h w word newName, reported h err);
                        (resolverSettledAt h w word newName, EvProgressSettled)])).
Proof.
  intros Hword Hin Hres. enter_run w Hword. answer Hin. answer Hres.
  destruct err; cbv beta iota; flatten_log; reflexivity.
Qed.

Variable result : IRenameResult.

(** The resolver answers with a truthy reject reason: line 163, then
    the same handler. *)
Lemma path_declined (w : World) (reason : string) :
  wordAtCursor h w = Some word ->
  outcome (inputAnswer h w word) = Fulfilled newName ->
  outcome (resolverAnswer h w newName) = Fulfilled result ->
  truthy (rejectReason result) = Some reason ->
  interaction h w =
    (Completed,
     mkWorld false (selection w) (position w) (bulkEdits w ++ [[]])
             (documents w) (resolverSettledAt h w word newName)
             (log w ++ opening w word
                    ++ restoring (inputSettledAt h w word)
                    ++ starting (inputSettledAt h w word) w newName
                    ++ [(resolverSettledAt h w word newName,
                         EvShowMessage Info reason);
                        (resolverSettledAt h w word newName, EvProgressSettled)])).
Proof.
  intros Hword Hin Hres Hreason. enter_run w Hword.
  answer Hin. answer Hres. answer Hreason.
  flatten_log. reflexivity.
Qed.

(** The edits are staged and [finish()] fulfils: lines 119-123. *)
Lemma path_committed (w : World) (restored : option Selection) :
  wordAtCursor h w = Some word ->
  outcome (inputAnswer h w word) = Fulfilled newName ->
  outcome (resolverAnswer h w newName) = Fulfilled result ->
  truthy (rejectReason result) = None ->
  outcome (finishBulkEdit h (edits result)) = Fulfilled restored ->
  interaction h w =
    (Completed,
     mkWorld false
             (match restored with Some s => s | None => selection w end)
             (position w) (bulkEdits w ++ [edits result])
             (documents w ++ edits result)
             (finishSettledAt h w word newName (edits result))
             (log w ++ opening w word
                    ++ restoring (inputSettledAt h w word)
                    ++ starting (inputSettledAt h w word) w newName
                    ++ [(resolverSettledAt h w word newName,
                         EvAdd (List.length (bulkEdits w)) (edits result));
                        (resolverSettledAt h w word newName,
                         EvFinish (List.length (bulkEdits w)))]
                    ++ match restored with
                       | Some s =>
                           [(finishSettledAt h w word newName (edits result),
                             EvSetSelection s)]
                       | None => []
                       end
                    ++ [(finishSettledAt h w word newName (edits result),
                         EvProgressSettled)])).
Proof.
  intros Hword Hin Hres Hedits Hfin. enter_run w Hword.
  answer Hin. answer Hres. answer Hedits.
  rewrite stage_fresh, nth_fresh. answer Hfin.
  destruct restored; cbv beta iota; flatten_log; reflexivity.
Qed.

(** The edits are staged and [finish()] rejects: no handler of
    [renameOperation] sees that rejection. *)
Lemma path_commit_failed (w : World) (err : JsValue) :
  wordAtCursor h w = Some word ->
  outcome (inputAnswer h w word) = Fulfilled newName ->
  outcome (resolverAnswer h w newName) = Fulfilled result ->
  truthy (rejectReason result) = None ->
  outcome (finishBulkEdit h (edits result)) = RejectedWith err ->
  interaction h w =
    (Failed err,
     mkWorld false (selection w) (position w) (bulkEdits w ++ [edits result])
             (documents w)
             (finishSettledAt h w word newName (edits result))
             (log w ++ opening w word
                    ++ restoring (inputSettledAt h w word)
                    ++ starting (inputSettledAt h w word) w newName
                    ++ [(resolverSettledAt h w word newName,
                         EvAdd (List.length (bulkEdits w)) (edits result));
                        (resolverSettledAt h w word newName,
                         EvFinish (List.length (bulkEdits w)));
                        (finishSettledAt h w word newName (edits result),
                         EvProgressSettled)])).
Proof.
  intros Hword Hin Hres Hedits Hfin. enter_run w Hword.
  answer Hin. answer Hres. answer Hedits.
  rewrite stage_fresh, nth_fresh. answer Hfin.
  flatten_log. reflexivity.
Qed.

End Paths.

(** Every interaction that finds a word follows one of the paths above;
    [by_paths] splits a goal about [interaction h w] accordingly and
    rewrites each case with the lemma of its path. *)
Ltac by_paths h w word Hword :=
  let newName := fresh "newName" in
  let result := fresh "result" in
  let Hin := fresh "Hin" in
  let Hres := fresh "Hres" in
  let Ht := fresh "Ht" in
  let Hf := fresh "Hf" in
  destruct (outcome (inputAnswer h w word)) as [newName | ?err] eqn:Hin;
  [ destruct (outcome (resolverAnswer h w newName)) as [result | ?err] eqn:Hres;
    [ destruct (truthy (rejectReason result)) as [?reason |] eqn:Ht;
      [ rewrite (@path_declined h word newName result w _ Hword Hin Hres Ht)
      | destruct (outcome (finishBulkEdit h (edits result)))
          as [?restored | ?err] eqn:Hf;
        [ rewrite (@path_committed h word newName result w _ Hword Hin Hres Ht Hf)
        | rewrite (@path_commit_failed h word newName result w _ Hword Hin Hres Ht Hf) ] ]
    | rewrite (@path_resolver_rejected h word newName w _ Hword Hin Hres) ]
  | rewrite (@path_input_rejected h word w _ Hword Hin) ].

(* ================================================================== *)
(** * Properties of RenameController                                   *)
(* ================================================================== *)

(** C7. When the document model reports no word at the start of the
    selection, [run()] returns at once and is a no-op: the world is left
    exactly as it was, so the input field was never shown, the visibility
    flag never written, no message shown and no document changed. *)
Theorem run_without_word_is_noop (h : Host) (w : World) :
  wordAtCursor h w = None ->
  interaction h w = (ReturnedUndefined, w)
  /\ log (snd (interaction h w)) = log w
  /\ renameInputVisible (snd (interaction h w)) = renameInputVisible w
  /\ documents (snd (interaction h w)) = documents w.
Proof.
  intros Hnone. rewrite (@path_no_word h w Hnone). cbn [snd]. auto.
Qed.

Lemma run_without_word_is_noop_witness :
  wordAtCursor (committingHost None) (cursorAt 2 5) = None
  /\ interaction (committingHost None) (cursorAt 2 5)
     = (ReturnedUndefined, cursorAt 2 5).
Proof.
  split; [reflexivity |].
  apply (run_without_word_is_noop (committingHost None) (cursorAt 2 5)).
  reflexivity.
Defined.

(** When [run()] returns its promise: the flag is up and the input field
    has just been shown. *)
Lemma run_shows_input (h : Host) (w : World) (word : Word.t) :
  wordAtCursor h w = Some word ->
  fst (run h w) <> None
  /\ renameInputVisible (snd (run h w)) = true
  /\ log (snd (run h w)) = log w ++ opening w word.
Proof.
  intros Hword. destruct w. open_names. open_run. rewrite Hword.
  match goal with
  | |- context [highlightedRange ?wd ?s] => destruct (highlightedRange wd s)
  end.
  cbv beta iota. cbn [fst snd]. flatten_log.
  split; [discriminate |]. split; reflexivity.
Qed.

(** C1. In every interaction that shows the input field, the visibility
    flag is set to [true] immediately before the field is shown and is
    [true] while the field is up (when [run()] has returned its promise,
    nothing but these two calls has happened and the flag holds [true]);
    it is reset as soon as the field settles and is not written again,
    and it is [false] when the outcome of [run()] settles, whichever way
    the interaction ends. *)
Theorem visibility_flag_restored (h : Host) (w : World) (word : Word.t) :
  wordAtCursor h w = Some word ->
  fst (run h w) <> None
  /\ renameInputVisible (snd (run h w)) = true
  /\ log (snd (run h w)) = log w ++ opening w word
  /\ fst (interaction h w) <> ReturnedUndefined
  /\ renameInputVisible (snd (interaction h w)) = false
  /\ exists rest,
       log (snd (interaction h w))
       = log w ++ opening w word ++ restoring (inputSettledAt h w word) ++ rest
       /\ contextWrites (opening w word) = [true]
       /\ contextWrites (restoring (inputSettledAt h w word)) = [false]
       /\ contextWrites rest = [].
Proof.
  intros Hword.
  destruct (run_shows_input h w word Hword) as (Hpromise & Hup & Hshown).
  split; [exact Hpromise |]. split; [exact Hup |]. split; [exact Hshown |].
  by_paths h w word Hword; cbn [fst snd renameInputVisible log];
    (split; [ try destruct (isPromiseCanceledError h err);
              try destruct err; cbn; discriminate | split; [reflexivity |] ]).
  - eexists. split; [reflexivity |]. cbn. auto.
  - eexists. split; [reflexivity |]. destruct restored; cbn; auto.
  - eexists. split; [reflexivity |]. cbn. auto.
  - eexists. split; [reflexivity |]. destruct err; cbn; auto.
  - exists []. rewrite app_nil_r. cbn. auto.
Qed.

Lemma visibility_flag_restored_witness :
  wordAtCursor commitFailingHost (cursorAt 1 5) = Some (Word.mk "foo" 5 8)
  /\ renameInputVisible (snd (run commitFailingHost (cursorAt 1 5))) = true
  /\ renameInputVisible (snd (interaction commitFailingHost (cursorAt 1 5)))
     = false.
Proof.
  assert (Hword : wordAtCursor commitFailingHost (cursorAt 1 5)
                  = Some (Word.mk "foo" 5 8)) by reflexivity.
  destruct (visibility_flag_restored commitFailingHost (cursorAt 1 5)
              (Word.mk "foo" 5 8) Hword)
    as (_ & Hup & _ & _ & Hdown & _).
  split; [exact Hword |]. split; [exact Hup | exact Hdown].
Defined.

Lemma highlightedRange_as_specified (word : Word.t) (sel : Selection) :
  highlightedRange word sel = highlightedRangeSpec word sel.
Proof.
  unfold highlightedRange, highlightedRangeSpec.
  destruct (isEmpty sel); destruct (startLineNumber sel =? endLineNumber sel)%Z;
    reflexivity.
Qed.

Lemma highlightedRange_within_word (word : Word.t) (sel : Selection) :
  wordCoversCursor word sel ->
  (0 <= fst (highlightedRange word sel)
   /\ fst (highlightedRange word sel) <= snd (highlightedRange word sel)
   /\ snd (highlightedRange word sel) <= Word.length word)%Z.
Proof.
  unfold wordCoversCursor, highlightedRange. intros (Hcol & Hlen & Hsel).
  destruct (negb (isEmpty sel)); cbn [andb].
  - destruct (Z.eqb_spec (startLineNumber sel) (endLineNumber sel)) as [Hline | Hline];
      cbn [fst snd].
    + specialize (Hsel Hline). lia.
    + unfold Word.length in *. lia.
  - cbn [fst snd]. unfold Word.length in *. lia.
Qed.

Lemma interaction_opens (h : Host) (w : World) (word : Word.t) :
  wordAtCursor h w = Some word ->
  exists rest, log (snd (interaction h w)) = log w ++ opening w word ++ rest.
Proof.
  intros Hword.
  by_paths h w word Hword; cbn [snd log]; eexists; reflexivity.
Qed.

(** C2. The sub-range handed to the input field is the whole word,
    [0 .. word length], when the selection is empty or spans several
    lines; otherwise it is [max(0, selectionStart - wordStart)] and
    [min(wordEnd, selectionEnd) - wordStart].  For the word the document
    model reports under the start of the selection, that sub-range lies
    within [0 .. word length]. *)
Theorem highlighted_range_passed (h : Host) (w : World) (word : Word.t) :
  wordAtCursor h w = Some word ->
  (exists rest,
     log (snd (interaction h w))
     = log w
       ++ [ (clock w, EvContextSet true);
            (clock w,
             EvGetInput (wordRangeOf word w) (Word.word word)
               (fst (highlightedRangeSpec word (selection w)))
               (snd (highlightedRangeSpec word (selection w)))) ]
       ++ rest)
  /\ (wordCoversCursor word (selection w) ->
      (0 <= fst (highlightedRangeSpec word (selection w))
       /\ fst (highlightedRangeSpec word (selection w))
          <= snd (highlightedRangeSpec word (selection w))
       /\ snd (highlightedRangeSpec word (selection w)) <= Word.length word)%Z).
Proof.
  intros Hword. split.
  - destruct (interaction_opens h w word Hword) as (rest & Hlog).
    exists rest. rewrite Hlog. unfold opening.
    rewrite (highlightedRange_as_specified word (selection w)). reflexivity.
  - rewrite <- (highlightedRange_as_specified word (selection w)).
    apply highlightedRange_within_word.
Qed.

Lemma highlighted_range_passed_witness :
  wordAtCursor (dismissingHost canceled) (selecting 1 6 7)
  = Some (Word.mk "foo" 5 8)
  /\ wordCoversCursor (Word.mk "foo" 5 8) (selection (selecting 1 6 7))
  /\ highlightedRangeSpec (Word.mk "foo" 5 8) (selection (selecting 1 6 7))
     = (1%Z, 2%Z)
  /\ (0 <= 1 /\ 1 <= 2 /\ 2 <= 3)%Z.
Proof.
  assert (Hword : wordAtCursor (dismissingHost canceled) (selecting 1 6 7)
                  = Some (Word.mk "foo" 5 8)) by reflexivity.
  assert (Hcover : wordCoversCursor (Word.mk "foo" 5 8)
                                    (selection (selecting 1 6 7))).
  { unfold wordCoversCursor. cbn. lia. }
  split; [exact Hword |]. split; [exact Hcover |]. split; [reflexivity |].
  exact (proj2 (highlighted_range_passed (dismissingHost canceled)
                  (selecting 1 6 7) (Word.mk "foo" 5 8) Hword) Hcover).
Defined.

(** C4. When the input field rejects, the handler resets the visibility
    flag and returns focus to the editor, and nothing else happens: no
    message, no transaction, no edit.  A cancellation is swallowed and
    [run()] completes; any other rejection is passed on to the caller,
    after the flag and the focus were restored. *)
Theorem input_rejection_handled (h : Host) (w : World) (word : Word.t)
    (err : JsValue) :
  wordAtCursor h w = Some word ->
  outcome (inputAnswer h w word) = RejectedWith err ->
  fst (interaction h w)
  = (if isPromiseCanceledError h err then Completed else Failed err)
  /\ log (snd (interaction h w))
     = log w ++ opening w word
             ++ [ (inputSettledAt h w word, EvContextReset);
                  (inputSettledAt h w word, EvFocus) ]
  /\ messagesShown (opening w word) = []
  /\ stagings (opening w word) = []
  /\ renameInputVisible (snd (interaction h w)) = false
  /\ bulkEdits (snd (interaction h w)) = bulkEdits w
  /\ documents (snd (interaction h w)) = documents w.
Proof.
  intros Hword Hin.
  rewrite (path_input_rejected h word w err Hword Hin).
  cbn [fst snd log renameInputVisible bulkEdits documents].
  repeat split; reflexivity.
Qed.

Lemma input_rejection_handled_witness :
  fst (interaction (dismissingHost canceled) (cursorAt 1 5)) = Completed
  /\ fst (interaction (dismissingHost (JsObject 7)) (cursorAt 1 5))
     = Failed (JsObject 7).
Proof.
  split.
  - apply (input_rejection_handled (dismissingHost canceled) (cursorAt 1 5)
                                   (Word.mk "foo" 5 8) canceled);
      reflexivity.
  - apply (input_rejection_handled (dismissingHost (JsObject 7)) (cursorAt 1 5)
                                   (Word.mk "foo" 5 8) (JsObject 7));
      reflexivity.
Defined.

Lemma truthy_nonempty (X : string) :
  X <> EmptyString -> truthy (Some X) = Some X.
Proof.
  destruct X as [| c rest]; [congruence | reflexivity].
Qed.

(** C3, as amended.  When the resolver's result carries a NON-EMPTY
    reject reason [X], exactly one informational message with text [X] is
    shown, no edit is staged, [finish()] is not called, no document is
    changed, and [run()] completes without an error.  (An empty reject
    reason does not pass the test of line 162.) *)
Theorem reject_reason_shown (h : Host) (w : World) (word : Word.t)
    (newName : string) (result : IRenameResult) (X : string) :
  wordAtCursor h w = Some word ->
  outcome (inputAnswer h w word) = Fulfilled newName ->
  outcome (resolverAnswer h w newName) = Fulfilled result ->
  rejectReason result = Some X ->
  X <> EmptyString ->
  DeclinedWith h w X.
Proof.
  intros Hword Hin Hres Hreason Hnonempty.
  assert (Ht : truthy (rejectReason result) = Some X)
    by (rewrite Hreason; now apply truthy_nonempty).
  unfold DeclinedWith.
  rewrite (path_declined h word newName result w X Hword Hin Hres Ht).
  cbn [fst snd documents log].
  split; [reflexivity |]. split; [reflexivity |].
  eexists. split; [reflexivity |]. cbn. auto.
Qed.

Lemma reject_reason_shown_witness :
  rejectReason (mkRenameResult (Some "no"%string) twoEdits) = Some "no"%string
  /\ DeclinedWith (decliningHost "no") (cursorAt 1 5) "no".
Proof.
  split; [reflexivity |].
  apply (reject_reason_shown (decliningHost "no") (cursorAt 1 5)
           (Word.mk "foo" 5 8) "bar" (mkRenameResult (Some "no"%string) twoEdits));
    try reflexivity.
  discriminate.
Defined.

(** C3 as stated fails for the empty reject reason: the result is taken
    for a list of edits, which are staged and committed, and no message
    is shown. *)
Lemma empty_reject_reason_is_committed :
  wordAtCursor (decliningHost EmptyString) (cursorAt 1 5)
  = Some (Word.mk "foo" 5 8)
  /\ outcome (inputAnswer (decliningHost EmptyString) (cursorAt 1 5)
                          (Word.mk "foo" 5 8))
     = Fulfilled "bar"%string
  /\ outcome (resolverAnswer (decliningHost EmptyString) (cursorAt 1 5) "bar")
     = Fulfilled (mkRenameResult (Some EmptyString) twoEdits)
  /\ messagesShown
       (log (snd (interaction (decliningHost EmptyString) (cursorAt 1 5))))
     = []
  /\ staged 0 (snd (interaction (decliningHost EmptyString) (cursorAt 1 5)))
     = twoEdits
  /\ documents (snd (interaction (decliningHost EmptyString) (cursorAt 1 5)))
     = twoEdits
  /\ ~ DeclinedWith (decliningHost EmptyString) (cursorAt 1 5) EmptyString.
Proof.
  repeat split; try reflexivity.
  intros (_ & Hdocs & _). vm_compute in Hdocs. discriminate Hdocs.
Qed.

(** C6. When the input is accepted, the resolver answers with edits and
    [finish()] fulfils, the edits are staged, in order and nothing else,
    into a transaction created for this run, [finish()] is called exactly
    once on it, and the selection it returns becomes the editor's
    selection; when it returns none, the editor's selection stays as it
    was and [setSelection] is not called. *)
Theorem edits_staged_and_committed (h : Host) (w : World) (word : Word.t)
    (newName : string) (result : IRenameResult) (restored : option Selection) :
  wordAtCursor h w = Some word ->
  outcome (inputAnswer h w word) = Fulfilled newName ->
  outcome (resolverAnswer h w newName) = Fulfilled result ->
  truthy (rejectReason result) = None ->
  outcome (finishBulkEdit h (edits result)) = Fulfilled restored ->
  fst (interaction h w) = Completed
  /\ bulkEdits (snd (interaction h w)) = bulkEdits w ++ [edits result]
  /\ staged (List.length (bulkEdits w)) w = []
  /\ staged (List.length (bulkEdits w)) (snd (interaction h w)) = edits result
  /\ selection (snd (interaction h w))
     = match restored with Some s => s | None => selection w end
  /\ documents (snd (interaction h w)) = documents w ++ edits result
  /\ exists new,
       log (snd (interaction h w)) = log w ++ new
       /\ stagings new = [(List.length (bulkEdits w), edits result)]
       /\ finishCalls new = [List.length (bulkEdits w)]
       /\ (forall t s,
             In (t, EvSetSelection s) new
             <-> restored = Some s
                 /\ t = finishSettledAt h w word newName (edits result)).
Proof.
  intros Hword Hin Hres Ht Hf.
  rewrite (path_committed h word newName result w restored Hword Hin Hres Ht Hf).
  cbn [fst snd bulkEdits selection documents log]. unfold staged.
  cbn [bulkEdits].
  split; [reflexivity |]. split; [reflexivity |].
  split; [apply nth_overflow; lia |].
  split; [apply nth_fresh |].
  split; [reflexivity |]. split; [reflexivity |].
  eexists. split; [reflexivity |].
  split; [destruct restored; reflexivity |].
  split; [destruct restored; reflexivity |].
  intros t s. unfold opening, restoring, starting.
  destruct restored as [s0 |]; cbn [app In]; split.
  - intros H. repeat (destruct H as [H | H]; try discriminate H); try contradiction.
    inversion H. auto.
  - intros [Hs Ht']. inversion Hs. subst. do 9 right. left. reflexivity.
  - intros H. repeat (destruct H as [H | H]; try discriminate H); contradiction.
  - intros [Hs _]. discriminate Hs.
Qed.

Lemma edits_staged_and_committed_witness :
  bulkEdits (snd (interaction (committingHost (Some (mkRange 1 5 1 8)))
                              (cursorAt 1 5)))
  = [[ResourceEdit 1; ResourceEdit 2]]
  /\ selection (snd (interaction (committingHost (Some (mkRange 1 5 1 8)))
                                 (cursorAt 1 5)))
     = mkRange 1 5 1 8.
Proof.
  assert (H := edits_staged_and_committed
           (committingHost (Some (mkRange 1 5 1 8))) (cursorAt 1 5)
           (Word.mk "foo" 5 8) "bar" (mkRenameResult None twoEdits)
           (Some (mkRange 1 5 1 8))
           eq_refl eq_refl eq_refl eq_refl eq_refl).
  destruct H as (_ & Hbulk & _ & _ & Hsel & _).
  split; [exact Hbulk | exact Hsel].
Defined.

(** What becomes of an unexpected error, by the stage that raises it.
    When the resolver rejects with a value that is not a plain string,
    exactly one error message with the generic failure text is shown, the
    error is passed on to the caller and the visibility flag is [false].
    When [finish()] rejects, the error is passed on to the caller and the
    visibility flag is [false], but the message is missing: the rejection
    handler of lines 125-132 is the second argument of the [then] whose
    first argument calls [finish()], so it is told of rejections of
    [_prepareRename] only. *)
Theorem unexpected_error_propagated (h : Host) (w : World) (word : Word.t)
    (newName : string) (err : JsValue) (stage : Stage) :
  wordAtCursor h w = Some word ->
  outcome (inputAnswer h w word) = Fulfilled newName ->
  raisedIn h w newName err stage ->
  FailedWith h w err
    match stage with
    | Computing => [(Error, renameFailed h)]
    | Committing => []
    end.
Proof.
  intros Hword Hin Hraised. unfold FailedWith.
  destruct stage; cbn [raisedIn] in Hraised.
  - destruct Hraised as (Hres & Htype).
    rewrite (path_resolver_rejected h word newName w err Hword Hin Hres).
    cbn [fst snd renameInputVisible log].
    destruct err; [discriminate Htype | |];
      (split; [reflexivity |]; split; [reflexivity |];
       eexists; split; [reflexivity |]; reflexivity).
  - destruct Hraised as (_ & result & Hres & Ht & Hf).
    rewrite (path_commit_failed h word newName result w err Hword Hin Hres Ht Hf).
    cbn [fst snd renameInputVisible log].
    split; [reflexivity |]. split; [reflexivity |].
    eexists. split; [reflexivity |]. reflexivity.
Qed.

Lemma unexpected_error_propagated_witness :
  FailedWith resolverFailingHost (cursorAt 1 5) boom
             [(Error, "Sorry, rename failed to execute."%string)]
  /\ FailedWith commitFailingHost (cursorAt 1 5) boom [].
Proof.
  split.
  - apply (unexpected_error_propagated resolverFailingHost (cursorAt 1 5)
             (Word.mk "foo" 5 8) "bar" boom Computing);
      try reflexivity.
    split; reflexivity.
  - apply (unexpected_error_propagated commitFailingHost (cursorAt 1 5)
             (Word.mk "foo" 5 8) "bar" boom Committing);
      try reflexivity.
    split; [reflexivity |].
    exists (mkRenameResult None twoEdits). repeat split; reflexivity.
Defined.

(** C5.  An unexpected error raised by the commit is passed on to the
    caller with the visibility flag down, but the error message that the
    claim requires is not shown: with the word "foo" under the cursor, the
    name "bar" accepted, two edits from the resolver and [finish()]
    rejecting with an [Error], the run fails with that error and shows no
    message at all.  The same error raised one step earlier, by the
    resolver, is reported with the generic failure message. *)
Lemma commit_error_shows_no_message :
  wordAtCursor commitFailingHost (cursorAt 1 5) = Some (Word.mk "foo" 5 8)
  /\ outcome (inputAnswer commitFailingHost (cursorAt 1 5) (Word.mk "foo" 5 8))
     = Fulfilled "bar"%string
  /\ raisedIn commitFailingHost (cursorAt 1 5) "bar" boom Committing
  /\ fst (interaction commitFailingHost (cursorAt 1 5)) = Failed boom
  /\ renameInputVisible (snd (interaction commitFailingHost (cursorAt 1 5)))
     = false
  /\ messagesShown (log (snd (interaction commitFailingHost (cursorAt 1 5))))
     = []
  /\ ~ FailedWith commitFailingHost (cursorAt 1 5) boom
         [(Error, renameFailed commitFailingHost)]
  /\ messagesShown (log (snd (interaction resolverFailingHost (cursorAt 1 5))))
     = [(Error, "Sorry, rename failed to execute."%string)].
Proof.
  split; [reflexivity |]. split; [reflexivity |].
  split; [| split; [| split; [| split; [| split]]]].
  - split; [reflexivity |].
    exists (mkRenameResult None twoEdits). repeat split; reflexivity.
  - reflexivity.
  - reflexivity.
  - reflexivity.
  - intros (_ & _ & new & Hlog & Hshown).
    vm_compute in Hlog. subst new. vm_compute in Hshown. discriminate Hshown.
  - reflexivity.
Qed.

Lemma untimed_eq (w1 w2 : World) :
  renameInputVisible w1 = renameInputVisible w2 ->
  selection w1 = selection w2 ->
  position w1 = position w2 ->
  bulkEdits w1 = bulkEdits w2 ->
  documents w1 = documents w2 ->
  map snd (log w1) = map snd (log w2) ->
  untimed w1 = untimed w2.
Proof.
  unfold untimed. intros -> -> -> -> -> ->. reflexivity.
Qed.

(** How long the collaborators take has no influence on what an
    interaction does. *)
Lemma timing_irrelevant (h1 h2 : Host) (w : World) :
  sameAnswers h1 h2 ->
  fst (interaction h1 w) = fst (interaction h2 w)
  /\ untimed (snd (interaction h1 w)) = untimed (snd (interaction h2 w)).
Proof.
  intros (Hw & Hi & Hr & Hf & Hc & Hl).
  destruct (wordAtCursor h1 w) as [word |] eqn:Hword1.
  - assert (Hword2 : wordAtCursor h2 w = Some word)
      by (unfold wordAtCursor in *; rewrite <- Hw; exact Hword1).
    destruct (outcome (inputAnswer h1 w word)) as [newName | err] eqn:Hin1.
    + assert (Hin2 : outcome (inputAnswer h2 w word) = Fulfilled newName)
        by (unfold inputAnswer in *; rewrite <- Hi; exact Hin1).
      destruct (outcome (resolverAnswer h1 w newName)) as [result | err] eqn:Hres1.
      * assert (Hres2 : outcome (resolverAnswer h2 w newName) = Fulfilled result)
          by (unfold resolverAnswer in *; rewrite <- Hr; exact Hres1).
        destruct (truthy (rejectReason result)) as [reason |] eqn:Ht.
        -- rewrite (path_declined h1 word newName result w _ Hword1 Hin1 Hres1 Ht).
           rewrite (path_declined h2 word newName result w _ Hword2 Hin2 Hres2 Ht).
           split; [reflexivity |]. apply untimed_eq; try reflexivity.
           cbn [snd log]. rewrite !map_app. reflexivity.
        -- destruct (outcome (finishBulkEdit h1 (edits result)))
             as [restored | err] eqn:Hf1.
           ++ assert (Hf2 : outcome (finishBulkEdit h2 (edits result)) = Fulfilled restored)
                by (rewrite <- Hf; exact Hf1).
              rewrite (path_committed h1 word newName result w _ Hword1 Hin1 Hres1 Ht Hf1).
              rewrite (path_committed h2 word newName result w _ Hword2 Hin2 Hres2 Ht Hf2).
              split; [reflexivity |]. apply untimed_eq; try reflexivity.
              cbn [snd log]. rewrite !map_app. destruct restored; reflexivity.
           ++ assert (Hf2 : outcome (finishBulkEdit h2 (edits result)) = RejectedWith err)
                by (rewrite <- Hf; exact Hf1).
              rewrite (path_commit_failed h1 word newName result w _ Hword1 Hin1 Hres1 Ht Hf1).
              rewrite (path_commit_failed h2 word newName result w _ Hword2 Hin2 Hres2 Ht Hf2).
              split; [reflexivity |]. apply untimed_eq; try reflexivity.
              cbn [snd log]. rewrite !map_app. reflexivity.
      * assert (Hres2 : outcome (resolverAnswer h2 w newName) = RejectedWith err)
          by (unfold resolverAnswer in *; rewrite <- Hr; exact Hres1).
        rewrite (path_resolver_rejected h1 word newName w _ Hword1 Hin1 Hres1).
        rewrite (path_resolver_rejected h2 word newName w _ Hword2 Hin2 Hres2).
        split; [reflexivity |]. apply untimed_eq; try reflexivity.
        cbn [snd log]. rewrite !map_app. cbn.
        unfold reported, renameFailed. rewrite Hl. reflexivity.
    + assert (Hin2 : outcome (inputAnswer h2 w word) = RejectedWith err)
        by (unfold inputAnswer in *; rewrite <- Hi; exact Hin1).
      rewrite (path_input_rejected h1 word w err Hword1 Hin1).
      rewrite (path_input_rejected h2 word w err Hword2 Hin2).
      rewrite Hc. split; [reflexivity |]. apply untimed_eq; try reflexivity.
      cbn [snd log]. rewrite !map_app. reflexivity.
  - assert (Hword2 : wordAtCursor h2 w = None)
      by (unfold wordAtCursor in *; rewrite <- Hw; exact Hword1).
    rewrite (path_no_word h1 w Hword1), (path_no_word h2 w Hword2).
    split; reflexivity.
Qed.

Lemma watched_longer_than (calledAt delay duration : nat) :
  indicatorShown calledAt delay (calledAt + duration) = (delay <? duration).
Proof.
  unfold indicatorShown.
  destruct (Nat.ltb_spec (calledAt + delay) (calledAt + duration));
    destruct (Nat.ltb_spec delay duration); auto; lia.
Qed.

(** The accepted path, as the progress service sees it: the call, what
    the step does, and last of all the service's own listener. *)
Lemma step_settles (h : Host) (w : World) (word : Word.t) (newName : string) :
  wordAtCursor h w = Some word ->
  outcome (inputAnswer h w word) = Fulfilled newName ->
  clock (snd (interaction h w))
  = inputSettledAt h w word + stepDuration h w newName
  /\ progressWatches (newEvents h w)
     = [(inputSettledAt h w word, 250, clock (snd (interaction h w)))]
  /\ exists after,
       log (snd (interaction h w))
       = log w ++ opening w word
               ++ restoring (inputSettledAt h w word)
               ++ starting (inputSettledAt h w word) w newName
               ++ after
               ++ [(clock (snd (interaction h w)), EvProgressSettled)]
       /\ progressCalls after = []
       /\ firstSettled after = None
       /\ Forall (fun entry => inputSettledAt h w word <= fst entry
                               /\ fst entry <= clock (snd (interaction h w)))
                 after.
Proof.
  intros Hword Hin. unfold stepDuration, newEvents.
  destruct (outcome (resolverAnswer h w newName)) as [result | err] eqn:Hres.
  - destruct (truthy (rejectReason result)) as [reason |] eqn:Ht.
    + rewrite (path_declined h word newName result w _ Hword Hin Hres Ht).
      read_new_events. cbn [clock]. unfold resolverSettledAt.
      split; [lia |]. split; [reflexivity |].
      exists [(inputSettledAt h w word + settlesAfter (resolverAnswer h w newName),
               EvShowMessage Info reason)].
      split; [reflexivity |]. split; [reflexivity |]. split; [reflexivity |].
      repeat constructor; cbn; lia.
    + destruct (outcome (finishBulkEdit h (edits result)))
        as [restored | err] eqn:Hf.
      * rewrite (path_committed h word newName result w _ Hword Hin Hres Ht Hf).
        read_new_events. cbn [clock]. unfold finishSettledAt, resolverSettledAt.
        split; [lia |]. split; [destruct restored; reflexivity |].
        eexists (_ :: _ :: match restored with
                           | Some s => [(_, EvSetSelection s)]
                           | None => []
                           end).
        split; [destruct restored; reflexivity |].
        destruct restored; (split; [reflexivity |]); (split; [reflexivity |]);
          repeat constructor; cbn; lia.
      * rewrite (path_commit_failed h word newName result w _ Hword Hin Hres Ht Hf).
        read_new_events. cbn [clock]. unfold finishSettledAt, resolverSettledAt.
        split; [lia |]. split; [reflexivity |].
        eexists [_; _].
        split; [reflexivity |]. split; [reflexivity |]. split; [reflexivity |].
        repeat constructor; cbn; lia.
  - rewrite (path_resolver_rejected h word newName w _ Hword Hin Hres).
    read_new_events. cbn [clock]. unfold resolverSettledAt.
    split; [lia |]. split; [destruct err; reflexivity |].
    eexists [_].
    split; [reflexivity |]. split; [destruct err; reflexivity |].
    split; [destruct err; reflexivity |].
    repeat constructor; cbn; lia.
Qed.

(** C8.  For every accepted input, the progress service is called exactly
    once, with a delay of exactly 250 milliseconds, at the moment the
    resolver is invoked, and the operation it is handed is the whole
    staged step: the service sees that operation settle only after
    everything the step does (the resolver's answer, staging, [finish()],
    messages, the new selection), at the very time the outcome of [run()]
    settles, resolver plus commit after the call.  So the busy indicator
    comes up exactly when the step, resolver plus commit, lasts longer
    than 250 milliseconds; and how long the step lasts, and with it
    whether the indicator comes up, changes nothing of what the
    interaction does. *)
Theorem progress_watches_whole_step (h : Host) (w : World) (word : Word.t)
    (newName : string) :
  wordAtCursor h w = Some word ->
  outcome (inputAnswer h w word) = Fulfilled newName ->
  (exists after,
     log (snd (interaction h w))
     = log w ++ opening w word
             ++ restoring (inputSettledAt h w word)
             ++ [ (inputSettledAt h w word, EvCreateBulkEdit (List.length (bulkEdits w)));
                  (inputSettledAt h w word, EvRename (position w) newName);
                  (inputSettledAt h w word, EvShowWhile 250) ]
             ++ after
             ++ [ (clock (snd (interaction h w)), EvProgressSettled) ]
     /\ progressCalls after = []
     /\ firstSettled after = None
     /\ Forall (fun entry => inputSettledAt h w word <= fst entry
                             /\ fst entry <= clock (snd (interaction h w)))
               after)
  /\ progressCalls (log (snd (interaction h w)))
     = progressCalls (log w) ++ [(inputSettledAt h w word, 250)]
  /\ progressWatches (newEvents h w)
     = [(inputSettledAt h w word, 250,
         inputSettledAt h w word + stepDuration h w newName)]
  /\ clock (snd (interaction h w))
     = inputSettledAt h w word + stepDuration h w newName
  /\ indicatorCameUp (newEvents h w) = (250 <? stepDuration h w newName)
  /\ (indicatorShown (inputSettledAt h w word) 250 (clock (snd (interaction h w)))
      = true
      <-> 250 < stepDuration h w newName)
  /\ (forall h2,
        sameAnswers h h2 ->
        fst (interaction h2 w) = fst (interaction h w)
        /\ untimed (snd (interaction h2 w)) = untimed (snd (interaction h w))).
Proof.
  intros Hword Hin.
  destruct (step_settles h w word newName Hword Hin)
    as (Hclock & Hwatch & after & Hlog & Hquiet & Hpending & Hwithin).
  split; [exists after; auto |].
  split.
  { rewrite Hlog. rewrite !progressCalls_app, Hquiet. f_equal. }
  split; [rewrite Hwatch, Hclock; reflexivity |].
  split; [exact Hclock |].
  split.
  { unfold indicatorCameUp. rewrite Hwatch, Hclock. cbn [existsb].
    rewrite watched_longer_than. apply orb_false_r. }
  split.
  { rewrite Hclock. rewrite watched_longer_than. apply Nat.ltb_lt. }
  intros h2 Hsame.
  destruct (timing_irrelevant h h2 w Hsame) as (Hout & Hworld).
  split; congruence.
Qed.

Lemma progress_watches_whole_step_witness :
  progressWatches (newEvents (committingHost None) (cursorAt 1 5))
  = [(1000, 250, 1000 + 340)]
  /\ indicatorCameUp (newEvents (committingHost None) (cursorAt 1 5)) = true
  /\ documents (snd (interaction (committingHost None) (cursorAt 1 5)))
     = twoEdits.
Proof.
  assert (H := progress_watches_whole_step
           (committingHost None) (cursorAt 1 5) (Word.mk "foo" 5 8) "bar"
           eq_refl eq_refl).
  destruct H as (_ & _ & Hwatch & _ & Hup & _).
  split; [exact Hwatch |]. split; [exact Hup | reflexivity].
Defined.

(* ================================================================== *)
(** * Properties of RenameAction                                       *)
(* ================================================================== *)

(** C9.  The rename action is enabled, and shown in the menu, only when
    at least one resolver is registered for the editor's document and the
    document is writable: without a registered resolver, or in a
    read-only editor, [enabled()] and the menu's condition are both
    false. *)
Theorem rename_needs_resolver_and_writable (registry : RenameProviderRegistry)
    (editor : ICommonCodeEditor) (focused textFocused inputVisible : bool) :
  has registry (getModel editor) = false \/ readOnly editor = true ->
  RenameAction.enabled (EditorAction RenameAction.needsWritableEditor)
                       registry editor = false
  /\ RenameAction.menuVisible registry editor focused textFocused inputVisible
     = false.
Proof.
  unfold RenameAction.enabled, RenameAction.menuVisible, RenameAction.menuOpts,
    RenameAction.needsWritableEditor, EditorAction.
  cbn. intros [Hnone | Hro].
  - rewrite Hnone. destruct (readOnly editor); auto.
  - rewrite Hro. cbn. split; [reflexivity | apply andb_false_r].
Qed.

Lemma rename_needs_resolver_and_writable_witness :
  RenameAction.enabled (EditorAction RenameAction.needsWritableEditor)
                       (fun _ => []) (mkEditor fooModel false) = false
  /\ RenameAction.menuVisible (fun _ => []) (mkEditor fooModel false)
                              true true false = false.
Proof.
  apply (rename_needs_resolver_and_writable
           (fun _ => []) (mkEditor fooModel false) true true false).
  left. reflexivity.
Defined.

(** C10.  Whatever the base class answers and whatever is registered, an
    editor whose model has an editable range does not support rename:
    [supported()] is true only for a model without an editable range. *)
Theorem editable_range_not_supported (base : EditorActionBase)
    (registry : RenameProviderRegistry) (editor : ICommonCodeEditor) :
  hasEditableRange (getModel editor) = true ->
  RenameAction.supported base registry editor = false.
Proof.
  unfold RenameAction.supported. intros Hrange. rewrite Hrange.
  destruct (superSupported base editor); cbn; [apply andb_false_r | reflexivity].
Qed.

Lemma editable_range_not_supported_witness :
  has (fun _ => [1]) (getModel (mkEditor (mkModel (fun _ => None) true) false))
  = true
  /\ RenameAction.supported (EditorAction RenameAction.needsWritableEditor)
       (fun _ => [1]) (mkEditor (mkModel (fun _ => None) true) false)
     = false.
Proof.
  split; [reflexivity |].
  apply (editable_range_not_supported
           (EditorAction RenameAction.needsWritableEditor) (fun _ => [1])
           (mkEditor (mkModel (fun _ => None) true) false)).
  reflexivity.
Defined.

(* ================================================================== *)
(** * Further properties of the controller                             *)
(* ================================================================== *)

(** X1. A resolver whose promise itself rejects with a plain string is
    treated like a reject reason: the string is shown as one
    informational message, nothing is staged or committed, and [run()]
    completes.  This holds for the empty string too, which
    [typeof err === 'string'] accepts. *)
Theorem string_rejection_shown (h : Host) (w : World) (word : Word.t)
    (newName : string) (X : string) :
  wordAtCursor h w = Some word ->
  outcome (inputAnswer h w word) = Fulfilled newName ->
  outcome (resolverAnswer h w newName) = RejectedWith (JsString X) ->
  DeclinedWith h w X.
Proof.
  intros Hword Hin Hres. unfold DeclinedWith.
  rewrite (path_resolver_rejected h word newName w (JsString X) Hword Hin Hres).
  cbn [fst snd documents log settledAfterReport].
  split; [reflexivity |]. split; [reflexivity |].
  eexists. split; [reflexivity |]. concrete_events. cbn. auto.
Qed.

Lemma string_rejection_shown_witness :
  DeclinedWith (fooHost typedBar (mkExternal 40 (RejectedWith (JsString EmptyString)))
                        (mkExternal 300 (Fulfilled None)))
               (cursorAt 1 5) EmptyString.
Proof.
  apply (string_rejection_shown
           (fooHost typedBar (mkExternal 40 (RejectedWith (JsString EmptyString)))
                    (mkExternal 300 (Fulfilled None)))
           (cursorAt 1 5) (Word.mk "foo" 5 8) "bar" EmptyString);
    reflexivity.
Defined.

(** X2. An interaction shows at most one message.  An informational
    message goes with a completed run; an error message always carries
    the generic failure text and goes with a run that fails with a value
    that is not a string. *)
Theorem at_most_one_message (h : Host) (w : World) :
  messagesShown (newEvents h w) = []
  \/ (exists X,
        messagesShown (newEvents h w) = [(Info, X)]
        /\ fst (interaction h w) = Completed)
  \/ (exists err,
        messagesShown (newEvents h w) = [(Error, renameFailed h)]
        /\ fst (interaction h w) = Failed err
        /\ typeofString err = false).
Proof.
  unfold newEvents.
  destruct (wordAtCursor h w) as [word |] eqn:Hword.
  - by_paths h w word Hword; read_new_events; concrete_events.
    + right. left. exists reason. split; reflexivity.
    + left. destruct restored; reflexivity.
    + left. reflexivity.
    + destruct err.
      * right. left. exists s. split; reflexivity.
      * right. right. eexists. repeat split; reflexivity.
      * right. right. eexists. repeat split; reflexivity.
    + left. reflexivity.
  - rewrite (path_no_word h w Hword). cbn [snd].
    rewrite skipn_all. left. reflexivity.
Qed.

(** X3. Unless [finish()] was called and the run completed, the editor's
    selection, its cursor position and the documents are exactly what
    they were: a cancelled, declined or failed rename changes nothing. *)
Theorem untouched_unless_committed (h : Host) (w : World) :
  fst (interaction h w) <> Completed \/ finishCalls (newEvents h w) = [] ->
  selection (snd (interaction h w)) = selection w
  /\ position (snd (interaction h w)) = position w
  /\ documents (snd (interaction h w)) = documents w
  /\ selectionsSet (newEvents h w) = [].
Proof.
  unfold newEvents.
  destruct (wordAtCursor h w) as [word |] eqn:Hword.
  - by_paths h w word Hword; read_new_events; concrete_events;
      try (intros _; repeat split; reflexivity).
    + intros [Hout | Hfin]; [congruence | destruct restored; discriminate Hfin].
    + intros _. destruct err; repeat split; reflexivity.
  - rewrite (path_no_word h w Hword). cbn [snd]. rewrite skipn_all.
    intros _. repeat split; reflexivity.
Qed.

Lemma untouched_unless_committed_witness :
  fst (interaction commitFailingHost (cursorAt 1 5)) <> Completed
  /\ selection (snd (interaction commitFailingHost (cursorAt 1 5)))
     = mkRange 1 5 1 5
  /\ documents (snd (interaction commitFailingHost (cursorAt 1 5))) = [].
Proof.
  assert (Hfailed : fst (interaction commitFailingHost (cursorAt 1 5)) <> Completed)
    by (vm_compute; discriminate).
  destruct (untouched_unless_committed commitFailingHost (cursorAt 1 5)
              (or_introl Hfailed)) as (Hsel & _ & Hdocs & _).
  split; [exact Hfailed |]. split; [exact Hsel | exact Hdocs].
Defined.

(** X4. An interaction that finds a word shows the input field exactly
    once and returns focus to the editor exactly once, on every path;
    the flag is written twice, [true] and then back to [false]. *)
Theorem one_input_one_focus (h : Host) (w : World) (word : Word.t) :
  wordAtCursor h w = Some word ->
  inputsShown (newEvents h w) = 1
  /\ focusCalls (newEvents h w) = 1
  /\ contextWrites (newEvents h w) = [true; false].
Proof.
  intros Hword. unfold newEvents.
  by_paths h w word Hword; read_new_events; concrete_events;
    try destruct restored; try destruct err; repeat split; reflexivity.
Qed.

Lemma one_input_one_focus_witness :
  focusCalls (newEvents (dismissingHost canceled) (cursorAt 1 5)) = 1
  /\ focusCalls (newEvents (committingHost (Some (mkRange 1 5 1 8))) (cursorAt 1 5))
     = 1.
Proof.
  split.
  - apply (one_input_one_focus (dismissingHost canceled) (cursorAt 1 5)
                               (Word.mk "foo" 5 8)).
    reflexivity.
  - apply (one_input_one_focus (committingHost (Some (mkRange 1 5 1 8)))
                               (cursorAt 1 5) (Word.mk "foo" 5 8)).
    reflexivity.
Defined.

Lemma nth_app_left (store added : list (list DocumentEdit)) (k : nat) :
  k < List.length store ->
  nth k (store ++ added) [] = nth k store [].
Proof.
  intros Hk. apply app_nth1. exact Hk.
Qed.

(** X5. The transactions of earlier runs are never touched: whatever an
    interaction does, the edits staged in a transaction that existed
    before it are the same afterwards. *)
Theorem earlier_transactions_untouched (h : Host) (w : World) (k : nat) :
  k < List.length (bulkEdits w) ->
  staged k (snd (interaction h w)) = staged k w.
Proof.
  intros Hk. unfold staged.
  destruct (wordAtCursor h w) as [word |] eqn:Hword.
  - by_paths h w word Hword; cbn [snd bulkEdits];
      try reflexivity; apply nth_app_left; exact Hk.
  - rewrite (path_no_word h w Hword). reflexivity.
Qed.

Lemma earlier_transactions_untouched_witness :
  staged 0 (snd (interaction
                   (committingHost None)
                   (mkWorld false (mkRange 1 5 1 5) (mkPosition 1 5)
                            [[ResourceEdit 9]] [] 0 [])))
  = [ResourceEdit 9]
  /\ staged 1 (snd (interaction
                      (committingHost None)
                      (mkWorld false (mkRange 1 5 1 5) (mkPosition 1 5)
                               [[ResourceEdit 9]] [] 0 [])))
     = twoEdits.
Proof.
  split; [| reflexivity].
  apply (earlier_transactions_untouched
           (committingHost None)
           (mkWorld false (mkRange 1 5 1 5) (mkPosition 1 5)
                    [[ResourceEdit 9]] [] 0 [])
           0).
  cbn. lia.
Defined.

(** X6. Within one interaction at most one transaction is created, and
    it is new; edits are added only to it, at most once; and [finish()]
    is called only on it, at most once, and only after the edits were
    added to it: the calls made on transactions are, in this order,
    nothing at all, or the creation alone, or the creation, one [add] and
    one [finish]. *)
Theorem own_transaction_only (h : Host) (w : World) :
  (transactionCalls (newEvents h w) = []
   /\ transactionsCreated (newEvents h w) = []
   /\ stagings (newEvents h w) = []
   /\ finishCalls (newEvents h w) = []
   /\ bulkEdits (snd (interaction h w)) = bulkEdits w)
  \/ (transactionsCreated (newEvents h w) = [List.length (bulkEdits w)]
      /\ exists es,
           bulkEdits (snd (interaction h w)) = bulkEdits w ++ [es]
           /\ ((es = []
                /\ transactionCalls (newEvents h w)
                   = [EvCreateBulkEdit (List.length (bulkEdits w))]
                /\ stagings (newEvents h w) = []
                /\ finishCalls (newEvents h w) = [])
               \/ (transactionCalls (newEvents h w)
                   = [EvCreateBulkEdit (List.length (bulkEdits w));
                      EvAdd (List.length (bulkEdits w)) es;
                      EvFinish (List.length (bulkEdits w))]
                   /\ stagings (newEvents h w) = [(List.length (bulkEdits w), es)]
                   /\ finishCalls (newEvents h w) = [List.length (bulkEdits w)]))).
Proof.
  unfold newEvents.
  destruct (wordAtCursor h w) as [word |] eqn:Hword.
  - by_paths h w word Hword; read_new_events; concrete_events.
    + right. split; [reflexivity |]. exists []. split; [reflexivity |].
      left. repeat split; reflexivity.
    + right. split; [destruct restored; reflexivity |].
      exists (edits result). split; [reflexivity |].
      right. destruct restored; repeat split; reflexivity.
    + right. split; [reflexivity |].
      exists (edits result). split; [reflexivity |].
      right. repeat split; reflexivity.
    + right. split; [destruct err; reflexivity |].
      exists []. split; [reflexivity |].
      left. destruct err; repeat split; reflexivity.
    + left. repeat split; reflexivity.
  - rewrite (path_no_word h w Hword). cbn [snd]. rewrite skipn_all.
    left. repeat split; reflexivity.
Qed.

(** [by_paths] for two worlds that the collaborators cannot tell apart:
    the interaction from [w2] follows the path of the one from [w1]. *)
Ltac by_paths_both h w1 w2 word Hword1 Hword2 :=
  let newName := fresh "newName" in
  let result := fresh "result" in
  let Hin := fresh "Hin" in
  let Hres := fresh "Hres" in
  let Ht := fresh "Ht" in
  let Hf := fresh "Hf" in
  destruct (outcome (inputAnswer h w1 word)) as [newName | ?err] eqn:Hin;
  [ destruct (outcome (resolverAnswer h w1 newName)) as [result | ?err] eqn:Hres;
    [ destruct (truthy (rejectReason result)) as [?reason |] eqn:Ht;
      [ rewrite (path_declined h word newName result w1 _ Hword1 Hin Hres Ht),
                (path_declined h word newName result w2 _ Hword2 Hin Hres Ht)
      | destruct (outcome (finishBulkEdit h (edits result)))
          as [?restored | ?err] eqn:Hf;
        [ rewrite (path_committed h word newName result w1 _ Hword1 Hin Hres Ht Hf),
                  (path_committed h word newName result w2 _ Hword2 Hin Hres Ht Hf)
        | rewrite (path_commit_failed h word newName result w1 _ Hword1 Hin Hres Ht Hf),
                  (path_commit_failed h word newName result w2 _ Hword2 Hin Hres Ht Hf) ] ]
    | rewrite (path_resolver_rejected h word newName w1 _ Hword1 Hin Hres),
              (path_resolver_rejected h word newName w2 _ Hword2 Hin Hres) ]
  | rewrite (path_input_rejected h word w1 _ Hword1 Hin),
            (path_input_rejected h word w2 _ Hword2 Hin) ].

(** X7. [run()] never reads the visibility flag: started while the flag
    is already [true] (a rename already in progress) it does exactly what
    it does otherwise.  It shows the input field again, and outcome,
    calls, transactions, documents and selection are the same. *)
Theorem run_ignores_visibility_flag (h : Host) (w : World) (value : bool) :
  fst (interaction h (withFlag value w)) = fst (interaction h w)
  /\ newEvents h (withFlag value w) = newEvents h w
  /\ selection (snd (interaction h (withFlag value w)))
     = selection (snd (interaction h w))
  /\ bulkEdits (snd (interaction h (withFlag value w)))
     = bulkEdits (snd (interaction h w))
  /\ documents (snd (interaction h (withFlag value w)))
     = documents (snd (interaction h w)).
Proof.
  unfold newEvents.
  destruct (wordAtCursor h w) as [word |] eqn:Hword.
  - assert (Hword2 : wordAtCursor h (withFlag value w) = Some word)
      by exact Hword.
    by_paths_both h w (withFlag value w) word Hword Hword2;
      read_new_events; cbn [withFlag log]; repeat rewrite skipn_length_app;
      repeat split; reflexivity.
  - assert (Hword2 : wordAtCursor h (withFlag value w) = None) by exact Hword.
    rewrite (path_no_word h w Hword), (path_no_word h _ Hword2).
    cbn [fst snd withFlag log bulkEdits documents selection].
    repeat split; reflexivity.
Qed.

(** X8. The keys of [RenameCommand] follow the interaction.  Once
    [run()] has returned its promise (the input field is up), Enter and
    Escape are routed to the controller exactly when the editor has
    focus; once that promise has settled they are not routed to it any
    more, focus or not. *)
Theorem rename_command_follows_run (h : Host) (w : World) (word : Word.t)
    (registry : RenameProviderRegistry) (editor : ICommonCodeEditor)
    (focused textFocused : bool) :
  wordAtCursor h w = Some word ->
  renameCommandActive registry editor focused textFocused (snd (run h w))
  = focused
  /\ renameCommandActive registry editor focused textFocused
                         (snd (interaction h w))
     = false.
Proof.
  intros Hword. unfold renameCommandActive, RenameCommand_kbExpr.
  cbn [evaluate editorContext]. split.
  - destruct w. open_names. open_run. rewrite Hword.
    match goal with
    | |- context [highlightedRange ?wd ?s] => destruct (highlightedRange wd s)
    end.
    cbv beta iota. apply andb_true_r.
  - by_paths h w word Hword; cbn [snd renameInputVisible]; apply andb_false_r.
Qed.

Lemma rename_command_follows_run_witness :
  renameCommandActive (fun _ => []) (mkEditor fooModel false) true true
                      (snd (run (committingHost None) (cursorAt 1 5)))
  = true
  /\ renameCommandActive (fun _ => []) (mkEditor fooModel false) true true
                         (snd (interaction (committingHost None) (cursorAt 1 5)))
     = false.
Proof.
  apply (rename_command_follows_run (committingHost None) (cursorAt 1 5)
           (Word.mk "foo" 5 8) (fun _ => []) (mkEditor fooModel false) true true).
  reflexivity.
Defined.

(** X9. For a non-empty selection on one line that starts inside the
    word, the highlight starts where the selection starts (no clamping
    takes place) and covers the part of the selection that lies inside
    the word; it is empty exactly when the selection starts at the very
    end of the word. *)
Theorem highlight_is_selection_inside_word (word : Word.t) (sel : Selection) :
  startLineNumber sel = endLineNumber sel ->
  (Word.startColumn word <= startColumn sel <= Word.endColumn word)%Z ->
  (startColumn sel < endColumn sel)%Z ->
  (fst (highlightedRange word sel) = startColumn sel - Word.startColumn word
   /\ snd (highlightedRange word sel)
      = Z.min (Word.endColumn word) (endColumn sel) - Word.startColumn word
   /\ snd (highlightedRange word sel) - fst (highlightedRange word sel)
      = Z.min (Word.endColumn word) (endColumn sel) - startColumn sel
   /\ (snd (highlightedRange word sel) = fst (highlightedRange word sel)
       <-> startColumn sel = Word.endColumn word))%Z.
Proof.
  intros Hline Hin Hnonempty. unfold highlightedRange, isEmpty.
  rewrite Hline, Z.eqb_refl.
  destruct (Z.eqb_spec (startColumn sel) (endColumn sel)) as [Heq | Hneq];
    [lia |].
  cbn [andb negb fst snd]. lia.
Qed.

Lemma highlight_is_selection_inside_word_witness :
  (fst (highlightedRange (Word.mk "foo" 5 8) (mkRange 1 6 1 12)) = 1
   /\ snd (highlightedRange (Word.mk "foo" 5 8) (mkRange 1 6 1 12)) = 3)%Z.
Proof.
  assert (Hinside : (Word.startColumn (Word.mk "foo" 5 8)
                     <= startColumn (mkRange 1 6 1 12)
                     <= Word.endColumn (Word.mk "foo" 5 8))%Z)
    by (cbn; lia).
  assert (Hnonempty : (startColumn (mkRange 1 6 1 12)
                       < endColumn (mkRange 1 6 1 12))%Z)
    by (cbn; lia).
  destruct (highlight_is_selection_inside_word
              (Word.mk "foo" 5 8) (mkRange 1 6 1 12) eq_refl Hinside Hnonempty)
    as (Hstart & Hend & _).
  split; [exact Hstart | exact Hend].
Defined.

(** X10. An empty list of edits is committed like any other: a
    transaction is created, [finish()] is called once on it, no document
    changes, and a selection returned by [finish()] is still applied. *)
Theorem empty_edit_list_still_committed (h : Host) (w : World) (word : Word.t)
    (newName : string) (result : IRenameResult) (restored : option Selection) :
  wordAtCursor h w = Some word ->
  outcome (inputAnswer h w word) = Fulfilled newName ->
  outcome (resolverAnswer h w newName) = Fulfilled result ->
  truthy (rejectReason result) = None ->
  edits result = [] ->
  outcome (finishBulkEdit h []) = Fulfilled restored ->
  fst (interaction h w) = Completed
  /\ transactionsCreated (newEvents h w) = [List.length (bulkEdits w)]
  /\ finishCalls (newEvents h w) = [List.length (bulkEdits w)]
  /\ messagesShown (newEvents h w) = []
  /\ documents (snd (interaction h w)) = documents w
  /\ selection (snd (interaction h w))
     = match restored with Some s => s | None => selection w end.
Proof.
  intros Hword Hin Hres Ht Hempty Hf. rewrite <- Hempty in Hf.
  unfold newEvents.
  rewrite (path_committed h word newName result w restored Hword Hin Hres Ht Hf).
  read_new_events. concrete_events. rewrite Hempty, app_nil_r.
  destruct restored; repeat split; reflexivity.
Qed.

Lemma empty_edit_list_still_committed_witness :
  finishCalls
    (newEvents (fooHost typedBar
                        (mkExternal 40 (Fulfilled (mkRenameResult None [])))
                        (mkExternal 300 (Fulfilled (Some (mkRange 1 5 1 8)))))
               (cursorAt 1 5))
  = [0]
  /\ selection
       (snd (interaction
               (fooHost typedBar
                        (mkExternal 40 (Fulfilled (mkRenameResult None [])))
                        (mkExternal 300 (Fulfilled (Some (mkRange 1 5 1 8)))))
               (cursorAt 1 5)))
     = mkRange 1 5 1 8.
Proof.
  destruct (empty_edit_list_still_committed
              (fooHost typedBar
                       (mkExternal 40 (Fulfilled (mkRenameResult None [])))
                       (mkExternal 300 (Fulfilled (Some (mkRange 1 5 1 8)))))
              (cursorAt 1 5) (Word.mk "foo" 5 8) "bar" (mkRenameResult None [])
              (Some (mkRange 1 5 1 8))
              eq_refl eq_refl eq_refl eq_refl eq_refl eq_refl)
    as (_ & _ & Hfinish & _ & _ & Hsel).
  split; [exact Hfinish | exact Hsel].
Defined.

(** X11. Whatever [finish()] rejects with, a plain string included, the
    rejection goes to the caller as it is: it is not taken for a reject
    reason, no message is shown, the selection and the documents are
    unchanged, and the edits stay staged in the transaction. *)
Theorem finish_rejection_propagated (h : Host) (w : World) (word : Word.t)
    (newName : string) (result : IRenameResult) (err : JsValue) :
  wordAtCursor h w = Some word ->
  outcome (inputAnswer h w word) = Fulfilled newName ->
  outcome (resolverAnswer h w newName) = Fulfilled result ->
  truthy (rejectReason result) = None ->
  outcome (finishBulkEdit h (edits result)) = RejectedWith err ->
  fst (interaction h w) = Failed err
  /\ messagesShown (newEvents h w) = []
  /\ selectionsSet (newEvents h w) = []
  /\ renameInputVisible (snd (interaction h w)) = false
  /\ selection (snd (interaction h w)) = selection w
  /\ documents (snd (interaction h w)) = documents w
  /\ staged (List.length (bulkEdits w)) (snd (interaction h w)) = edits result.
Proof.
  intros Hword Hin Hres Ht Hf. unfold newEvents, staged.
  rewrite (path_commit_failed h word newName result w err Hword Hin Hres Ht Hf).
  read_new_events. concrete_events. rewrite nth_fresh.
  repeat split; reflexivity.
Qed.

Lemma finish_rejection_propagated_witness :
  fst (interaction
         (fooHost typedBar
                  (mkExternal 40 (Fulfilled (mkRenameResult None twoEdits)))
                  (mkExternal 300 (RejectedWith (JsString "file is locked"))))
         (cursorAt 1 5))
  = Failed (JsString "file is locked")
  /\ messagesShown
       (newEvents
          (fooHost typedBar
                   (mkExternal 40 (Fulfilled (mkRenameResult None twoEdits)))
                   (mkExternal 300 (RejectedWith (JsString "file is locked"))))
          (cursorAt 1 5))
     = [].
Proof.
  destruct (finish_rejection_propagated
              (fooHost typedBar
                       (mkExternal 40 (Fulfilled (mkRenameResult None twoEdits)))
                       (mkExternal 300 (RejectedWith (JsString "file is locked"))))
              (cursorAt 1 5) (Word.mk "foo" 5 8) "bar"
              (mkRenameResult None twoEdits) (JsString "file is locked")
              eq_refl eq_refl eq_refl eq_refl eq_refl)
    as (Hout & Hnone & _).
  split; [exact Hout | exact Hnone].
Defined.

(** X12. The resolver is invoked only when the input field fulfils, then
    exactly once, with the editor's cursor position and with the very
    name the field produced (whatever it is: the controller does not
    check it, trim it or compare it with the old word).  Without a word,
    or when the input is rejected, the resolver is never invoked. *)
Theorem resolver_invoked_on_accept_only (h : Host) (w : World) :
  resolverCalls (newEvents h w)
  = match wordAtCursor h w with
    | Some word =>
        match outcome (inputAnswer h w word) with
        | Fulfilled newName => [(position w, newName)]
        | RejectedWith _ => []
        end
    | None => []
    end.
Proof.
  unfold newEvents.
  destruct (wordAtCursor h w) as [word |] eqn:Hword.
  - by_paths h w word Hword; read_new_events; concrete_events;
      try destruct restored; try destruct err; reflexivity.
  - rewrite (path_no_word h w Hword). cbn [snd]. rewrite skipn_all.
    reflexivity.
Qed.

(** X13. The controller never makes up an error and never wraps one:
    when [run()] fails with [err], then [err] is the value one of the
    collaborators rejected with, either the input field (and it was no
    cancellation), or the resolver (and it was no string), or
    [finish()].  A reject reason never ends up as a failure. *)
Theorem failures_come_from_collaborators (h : Host) (w : World) (err : JsValue) :
  fst (interaction h w) = Failed err ->
  exists word,
    wordAtCursor h w = Some word
    /\ ((outcome (inputAnswer h w word) = RejectedWith err
         /\ isPromiseCanceledError h err = false)
        \/ exists newName,
             outcome (inputAnswer h w word) = Fulfilled newName
             /\ ((outcome (resolverAnswer h w newName) = RejectedWith err
                  /\ typeofString err = false)
                 \/ exists result,
                      outcome (resolverAnswer h w newName) = Fulfilled result
                      /\ truthy (rejectReason result) = None
                      /\ outcome (finishBulkEdit h (edits result))
                         = RejectedWith err)).
Proof.
  destruct (wordAtCursor h w) as [word |] eqn:Hword.
  - intros Hfailed. exists word. split; [reflexivity |]. revert Hfailed.
    by_paths h w word Hword; cbn [fst].
    + discriminate.
    + discriminate.
    + intros Hfailed. injection Hfailed as ->. right. exists newName.
      split; [reflexivity |]. right. exists result. auto.
    + intros Hfailed. right. exists newName. split; [reflexivity |]. left.
      destruct err0; cbn in Hfailed; [discriminate Hfailed | |];
        injection Hfailed as <-; (split; [exact Hres | reflexivity]).
    + intros Hfailed. left.
      destruct (isPromiseCanceledError h err0) eqn:Hcancel;
        [discriminate Hfailed |].
      injection Hfailed as <-. split; [reflexivity | exact Hcancel].
  - rewrite (path_no_word h w Hword). cbn [fst]. discriminate.
Qed.

Lemma failures_come_from_collaborators_witness :
  fst (interaction commitFailingHost (cursorAt 1 5)) = Failed boom
  /\ exists word,
       wordAtCursor commitFailingHost (cursorAt 1 5) = Some word.
Proof.
  assert (Hfailed : fst (interaction commitFailingHost (cursorAt 1 5)) = Failed boom)
    by reflexivity.
  split; [exact Hfailed |].
  destruct (failures_come_from_collaborators commitFailingHost (cursorAt 1 5)
              boom Hfailed) as (word & Hword & _).
  exists word. exact Hword.
Defined.

(** The log only grows: [newEvents] is all an interaction adds to it. *)
Lemma log_extended (h : Host) (w : World) :
  log (snd (interaction h w)) = log w ++ newEvents h w.
Proof.
  unfold newEvents.
  destruct (wordAtCursor h w) as [word |] eqn:Hword.
  - by_paths h w word Hword; read_new_events; reflexivity.
  - rewrite (path_no_word h w Hword). cbn [snd]. rewrite skipn_all.
    now rewrite app_nil_r.
Qed.

(* ================================================================== *)
(** * Further properties of the action                                 *)
(* ================================================================== *)

(** X14. Whatever base class the action is built on: [supported()] and
    [enabled()] both require their [super] counterpart and a registered
    resolver, and [supported()] is the stricter of the two.  Where the
    base class enables what it supports, an editor that supports rename
    has rename enabled, and the two differ exactly on models with an
    editable range. *)
Theorem supported_is_stricter_than_enabled (base : EditorActionBase)
    (registry : RenameProviderRegistry) (editor : ICommonCodeEditor) :
  superSupported base editor = superEnabled base editor ->
  RenameAction.supported base registry editor
  = RenameAction.enabled base registry editor
    && negb (hasEditableRange (getModel editor))
  /\ (RenameAction.supported base registry editor = true ->
      RenameAction.enabled base registry editor = true
      /\ superSupported base editor = true
      /\ has registry (getModel editor) = true
      /\ hasEditableRange (getModel editor) = false).
Proof.
  intros Hbase. unfold RenameAction.supported, RenameAction.enabled.
  rewrite Hbase.
  destruct (superEnabled base editor), (has registry (getModel editor)),
    (hasEditableRange (getModel editor)); cbn; split; try reflexivity;
    intros H; try discriminate H; repeat split; reflexivity.
Qed.

Lemma supported_is_stricter_than_enabled_witness :
  RenameAction.supported (mkBase (fun _ => true) (fun _ => true))
    (fun _ => [1]) (mkEditor (mkModel (fun _ => None) true) false)
  = RenameAction.enabled (mkBase (fun _ => true) (fun _ => true))
      (fun _ => [1]) (mkEditor (mkModel (fun _ => None) true) false)
    && negb true.
Proof.
  destruct (supported_is_stricter_than_enabled
              (mkBase (fun _ => true) (fun _ => true))
              (fun _ => [1]) (mkEditor (mkModel (fun _ => None) true) false)
              eq_refl) as (Hrel & _).
  exact Hrel.
Defined.
